(** * The quiz chain solver: a shallow embedding and its properties

    The development follows the source files that carry the logic:
    - [llm_handler.py]: salvage of the planner's response and the
      execution/coercion of the answer ([LLMHandler]);
    - [utils/quiz_solver.py]: link extraction, resource download, answer
      submission and the chain loop ([QuizSolver]);
    - [main.py]: the background task that records a task status ([Main]),
      the log, the registry of tasks and the endpoints ([Service]);
    - [models.py]: the validators of a request ([Models]).

    Python values are modelled by [pyval], Python [str] by lists of code
    points, exceptions by the [result] monad.  What the program obtains from
    libraries and from the outside world (the JSON decoder, the Unicode
    tables, [urljoin], the HTTP client, the language model, the interpreter
    running a script) enters through type classes of oracles.  What the
    program prints on the console is left out. *)

From Stdlib Require Import ZArith NArith String Ascii List Lia DecimalString.
From Stdlib Require DecimalPos.
From stdpp Require Import base option list gmap.

Set Default Proof Using "Type".
Set Warnings "-clear-no-such-hyp".

(* ===================================================================== *)
(** * Part I: the embedding                                               *)
(* ===================================================================== *)

(** ** Python runtime values *)

Module Py.

(** A Python [str] is a sequence of Unicode code points. *)
Abbreviation pystr := (list N).

(** ASCII literals of the source. *)
Definition lit (s : string) : pystr :=
  List.map N_of_ascii (list_ascii_of_string s).
Arguments lit : simpl never.

(** [bytes] objects. *)
Definition bytes : Type := list N.

Definition str_eqb (a b : pystr) : bool := bool_decide (a = b).

(** [s.startswith(p)] *)
Fixpoint startswith (p s : pystr) : bool :=
  match p, s with
  | [], _ => true
  | _ :: _, [] => false
  | a :: p', b :: s' => N.eqb a b && startswith p' s'
  end.

(** [s.endswith(p)] *)
Definition endswith (p s : pystr) : bool := startswith (reverse p) (reverse s).

(** [p in s] for two strings. *)
Fixpoint contains (p s : pystr) : bool :=
  match s with
  | [] => match p with [] => true | _ => false end
  | _ :: s' => startswith p s || contains p s'
  end.

(** [s.replace(old, new)]: occurrences are replaced left to right and do not
    overlap.  [skip] counts the characters of a match still to be dropped. *)
Fixpoint replace_from (old new : pystr) (skip : nat) (s : pystr) : pystr :=
  match s with
  | [] => []
  | c :: t =>
      match skip with
      | S k => replace_from old new k t
      | O => if startswith old s
             then new ++ replace_from old new (length old - 1) t
             else c :: replace_from old new 0 t
      end
  end.

Definition replace (old new s : pystr) : pystr :=
  match old with
  | [] => new ++ concat (List.map (fun c => c :: new) s)
  | _ => replace_from old new 0 s
  end.

(** [str.isspace] of one code point (the table of CPython's
    [_PyUnicode_IsWhitespace]). *)
Definition isspace (c : N) : bool :=
  ((9 <=? c) && (c <=? 13) || (28 <=? c) && (c <=? 32)
   || (c =? 133) || (c =? 160) || (c =? 5760)
   || (8192 <=? c) && (c <=? 8202)
   || (c =? 8232) || (c =? 8233) || (c =? 8239) || (c =? 8287)
   || (c =? 12288))%N.

Fixpoint lstrip_by (f : N -> bool) (s : pystr) : pystr :=
  match s with
  | [] => []
  | c :: t => if f c then lstrip_by f t else s
  end.

Definition rstrip_by (f : N -> bool) (s : pystr) : pystr :=
  reverse (lstrip_by f (reverse s)).

Definition strip_by (f : N -> bool) (s : pystr) : pystr :=
  rstrip_by f (lstrip_by f s).

(** [s.strip()] *)
Definition strip (s : pystr) : pystr := strip_by isspace s.

(** [s.strip(chars)] *)
Definition strip_chars (chars s : pystr) : pystr :=
  strip_by (fun c => existsb (N.eqb c) chars) s.

(** [s.lower()].  Only the letters A-Z are mapped: of the code points
    outside ASCII none but U+212A lowers to an ASCII string (to "k"), so the
    comparisons against ASCII words made by the program are unaffected. *)
Definition lower_char (c : N) : N :=
  if ((65 <=? c) && (c <=? 90))%N then (c + 32)%N else c.

Definition lower (s : pystr) : pystr := List.map lower_char s.

(** [s.split(sep, 1)[1]] for a one-character [sep] that occurs in [s]. *)
Fixpoint after_first (sep : N) (s : pystr) : pystr :=
  match s with
  | [] => []
  | c :: t => if N.eqb c sep then t else after_first sep t
  end.

(** [s.split(sep)[-1]] for a one-character [sep]. *)
Fixpoint after_last_from (sep : N) (acc s : pystr) : pystr :=
  match s with
  | [] => acc
  | c :: t => if N.eqb c sep then after_last_from sep t t
              else after_last_from sep acc t
  end.

Definition split_last (sep : N) (s : pystr) : pystr := after_last_from sep s s.

(** [str(n)] for an integer (of at most [int_max_str_digits] digits: for
    a longer one recent interpreters make [str] raise). *)
Definition str_of_Z (z : Z) : pystr :=
  lit (NilZero.string_of_int (Z.to_int z)).

(** Exceptions: the class and [str(e)]. *)
Inductive exn_class :=
| TypeError | AttributeError | ValueError | RuntimeError | UnboundLocalError
| TimeoutExpired | AsyncioTimeoutError | OtherException.

Record exn := Exn { exn_cls : exn_class; exn_str : pystr }.

Inductive result (A : Type) : Type :=
| Ok (a : A)
| Raise (e : exn).
Arguments Ok {A} a.
Arguments Raise {A} e.

#[global] Instance result_ret : MRet result := fun A a => Ok a.
#[global] Instance result_bind : MBind result := fun A B f m =>
  match m with Ok a => f a | Raise e => Raise e end.

(** Floats are kept as the decimal numeral they were read from: the value
    is the binary64 number nearest to (-1)^sign * digits * 10^exp10. *)
Record pyfloat := PyFloat { fl_neg : bool; fl_digits : Z; fl_exp10 : Z }.

(** The values a JSON document decodes to. *)
#[warning="-register-all"]
Inductive pyval :=
| VNone
| VBool (b : bool)
| VInt (z : Z)
| VFloat (f : pyfloat)
| VStr (s : pystr)
| VList (l : list pyval)
| VDict (d : list (pystr * pyval)).

(** A [dict] is an association list with distinct keys. *)
Fixpoint assoc {A : Type} (k : pystr) (d : list (pystr * A)) : option A :=
  match d with
  | [] => None
  | (k', v) :: d' => if str_eqb k k' then Some v else assoc k d'
  end.

(** Truth value of an object in a condition (a float numeral counts as
    zero when its digits are zero). *)
Definition truthy (v : pyval) : bool :=
  match v with
  | VNone => false
  | VBool b => b
  | VInt z => negb (Z.eqb z 0)
  | VFloat f => negb (Z.eqb (fl_digits f) 0)
  | VStr s => match s with [] => false | _ => true end
  | VList l => match l with [] => false | _ => true end
  | VDict d => match d with [] => false | _ => true end
  end.

Definition type_name (v : pyval) : pystr :=
  match v with
  | VNone => lit "NoneType"
  | VBool _ => lit "bool"
  | VInt _ => lit "int"
  | VFloat _ => lit "float"
  | VStr _ => lit "str"
  | VList _ => lit "list"
  | VDict _ => lit "dict"
  end.

(** [obj.get(key, default)]: only a [dict] has the method. *)
Definition get (obj : pyval) (key : pystr) (default_value : pyval) : result pyval :=
  match obj with
  | VDict d => Ok (default default_value (assoc key d))
  | _ => Raise (Exn AttributeError
                  (lit "'" ++ type_name obj ++ lit "' object has no attribute 'get'"))
  end.

(** [kw in obj] for a string [kw]: substring of a string, element of a
    list, key of a dict; the other types are not containers. *)
Definition str_in (kw : pystr) (obj : pyval) : result bool :=
  match obj with
  | VStr s => Ok (contains kw s)
  | VList l => Ok (existsb (fun e => match e with VStr s => str_eqb s kw | _ => false end) l)
  | VDict d => Ok (match assoc kw d with Some _ => true | None => false end)
  | _ => Raise (Exn TypeError
                  (lit "argument of type '" ++ type_name obj ++ lit "' is not iterable"))
  end.

(** [any(kw in obj for kw in kws)], left to right, stopping at the first hit. *)
Fixpoint any_in (kws : list pystr) (obj : pyval) : result bool :=
  match kws with
  | [] => Ok false
  | kw :: rest =>
      b ← str_in kw obj;
      if b : bool then Ok true else any_in rest obj
  end.

(** *** Reading numbers: [int(s)] and [float(s)] *)

(** The code points of the digit zero of every script: the characters
    with a decimal value are the ten code points from each of them on
    (Unicode 14.0, the database of CPython 3.11). *)
Definition decimal_zeros : list N :=
  [48; 1632; 1776; 1984; 2406; 2534; 2662; 2790; 2918; 3046; 3174; 3302;
   3430; 3558; 3664; 3792; 3872; 4160; 4240; 6112; 6160; 6470; 6608; 6784;
   6800; 6992; 7088; 7232; 7248; 42528; 43216; 43264; 43472; 43504; 43600;
   44016; 65296; 66720; 68912; 69734; 69872; 69942; 70096; 70384; 70736;
   70864; 71248; 71360; 71472; 71904; 72016; 72784; 73040; 73120; 92768;
   92864; 93008; 120782; 120792; 120802; 120812; 120822; 123200; 123632;
   125264; 130032]%N.

(** The decimal value of a character, as [int] and [float] read it. *)
Definition digit_of (c : N) : option Z :=
  (λ zero, Z.of_N (c - zero)) <$>
  List.find (λ zero, (zero <=? c) && (c <? zero + 10))%N decimal_zeros.

(** The whitespace [int] and [float] skip at both ends of their argument:
    that of [str.isspace] but for the four separators U+001C to U+001F. *)
Definition number_space (c : N) : bool :=
  isspace c && negb ((28 <=? c) && (c <=? 31))%N.

(** [sys.get_int_max_str_digits()]: the default of CPython 3.11. *)
Definition int_max_str_digits : Z := 4300.

(** Digits, with single underscores allowed between two digits. *)
Fixpoint digit_group (after_digit : bool) (s : pystr) : option (list Z) :=
  match s with
  | [] => if after_digit then Some [] else None
  | c :: t =>
      if (c =? 95)%N
      then (if after_digit then digit_group false t else None)
      else d ← digit_of c; ds ← digit_group true t; Some (d :: ds)
  end.

Definition digits_value (ds : list Z) : Z :=
  fold_left (fun acc d => acc * 10 + d)%Z ds 0%Z.

Definition split_sign (s : pystr) : bool * pystr :=
  match s with
  | 45%N :: t => (true, t)
  | 43%N :: t => (false, t)
  | _ => (false, s)
  end.

(** [int(s)] in base 10; [None] stands for [ValueError], which is also
    raised for a numeral of more than [int_max_str_digits] digits. *)
Definition py_int (s : pystr) : option Z :=
  let '(neg, body) := split_sign (strip_by number_space s) in
  ds ← digit_group false body;
  if (int_max_str_digits <? Z.of_nat (length ds))%Z then None
  else Some (if neg then - digits_value ds else digits_value ds)%Z.

(** The text before the first character satisfying [f], and the text after
    it when there is one. *)
Fixpoint break_at (f : N -> bool) (s : pystr) : pystr * option pystr :=
  match s with
  | [] => ([], None)
  | c :: t => if f c then ([], Some t)
              else let '(a, b) := break_at f t in (c :: a, b)
  end.

Definition optional_digits (s : pystr) : option (list Z) :=
  match s with [] => Some [] | _ => digit_group false s end.

(** [float(s)] on a decimal numeral: sign, digits with an optional point,
    optional exponent; [None] stands for [ValueError].  The words [inf] and
    [nan], which [float] reads too, contain no point; the program calls
    [float] only on strings that contain one. *)
Definition py_float (s : pystr) : option pyfloat :=
  let '(neg, body) := split_sign (strip_by number_space s) in
  let '(mant, expo) := break_at (fun c => (c =? 101) || (c =? 69))%N body in
  e ← match expo with
      | None => Some 0%Z
      | Some es => let '(eneg, ebody) := split_sign es in
                   ds ← digit_group false ebody;
                   Some (if eneg then - digits_value ds else digits_value ds)%Z
      end;
  let '(ip, fp) := break_at (N.eqb 46) mant in
  match fp with
  | None => ds ← digit_group false ip; Some (PyFloat neg (digits_value ds) e)
  | Some fs =>
      ids ← optional_digits ip;
      fds ← optional_digits fs;
      match ids ++ fds with
      | [] => None
      | ds => Some (PyFloat neg (digits_value ds) (e - Z.of_nat (length fds)))
      end
  end.

End Py.

(** ** llm_handler.py *)

Module LLMHandler.
Import Py.

(** [json.loads]: [None] stands for any exception it raises. *)
Class JsonDecoder := { json_loads : pystr -> option pyval }.

(** [str.isprintable] of one code point (a table of the Unicode database). *)
Class UnicodeData := { isprintable : N -> bool }.

(** [urlparse(url)]: the scheme and the netloc, or the exception raised. *)
Class UrlParser := { urlparse : pyval -> result (pystr * pystr) }.

(** How a call of [subprocess.run] ends: the process exits and its output
    is decoded; the time allowed runs out, [cmd] being the list of
    arguments as [str] shows it; or another exception is raised, as
    [UnicodeDecodeError] is when the output cannot be decoded. *)
Inductive completed_process :=
| Exited (returncode : Z) (stdout stderr : pystr)
| Expired (cmd : pystr)
| RunRaised (e : exn).

Class Interpreter := {
  (** creating the temporary file, opened in text mode with the encoding
      of the platform, and [f.write(text)]: [UnicodeEncodeError] when the
      text cannot be encoded, as a lone surrogate cannot be in UTF-8 *)
  tempfile_write : pystr -> result unit;
  (** [subprocess.run([sys.executable, script_path], capture_output=True,
      text=True, timeout=30)] on a script with the given text *)
  subprocess_run : pystr -> completed_process
}.

(** The suffix of [s] that starts at the first [c]. *)
Fixpoint from_first (c : N) (s : pystr) : option pystr :=
  match s with
  | [] => None
  | x :: t => if N.eqb x c then Some s else from_first c t
  end.

(** The prefix of [s] that ends at the last [c]. *)
Definition through_last (c : N) (s : pystr) : option pystr :=
  reverse <$> from_first c (reverse s).

(** [re.search(r'\{.*\}', text, re.DOTALL).group()]: from the first opening
    brace through the last closing brace after it. *)
Definition re_search_braces (text : pystr) : option pystr :=
  s ← from_first 123 text;
  match s with
  | [] => None
  | b :: t => (cons b) <$> through_last 125 t
  end.

Definition backticks3 : pystr := [96; 96; 96]%N.
Definition backticks6 : pystr := (backticks3 ++ backticks3)%list.

Section Salvage.
Context `{json_lib : JsonDecoder} `{unicode_lib : UnicodeData}.

(** The text that the last attempt of [_parse_json_response] decodes. *)
Definition cleaned_text (text : pystr) : pystr :=
  let cleaned := strip (replace backticks3 []
                          (replace (backticks3 ++ lit "json") [] text)) in
  let cleaned := replace [9%N] [32%N] (replace [10%N] [32%N] cleaned) in
  let cleaned := replace [8217%N] [39%N]
                   (replace [8221%N] [34%N]
                      (replace [8220%N] [34%N] cleaned)) in
  let cleaned := replace [92; 34]%N [34%N]
                   (replace [92; 39]%N [39%N] cleaned) in
  let cleaned := List.filter isprintable cleaned in
  replace backticks6 [] cleaned.

Definition _parse_json_response (text : pystr) : result pyval :=
  match json_loads text with
  | Some v => Ok v
  | None =>
      let json_match := re_search_braces text in
      match json_match ≫= json_loads with
      | Some v => Ok v
      | None =>
          match json_loads (cleaned_text text) with
          | Some v => Ok v
          | None =>
              Ok (VDict
                    [ (lit "analysis",
                       VStr (lit "Failed to parse JSON. Raw response: "
                             ++ take 200 text));
                      (lit "data_needed", VList []);
                      (lit "steps", VList [VStr (lit "Manual parsing required")]);
                      (lit "answer_type", VStr (lit "string"));
                      (lit "solution", VStr text) ])
          end
      end
  end.

Definition _process_llm_response (llm_response : pystr) : pyval :=
  let cleaned := strip llm_response in
  let cleaned :=
    if startswith backticks3 cleaned
    then let cleaned := strip_chars [96%N] cleaned in
         if contains [10%N] cleaned then after_first 10 cleaned else cleaned
    else cleaned in
  match _parse_json_response cleaned with
  | Ok v => v
  | Raise e =>
      VDict [ (lit "analysis", VStr (lit "Failed to parse LLM response"));
              (lit "data_needed", VList []);
              (lit "steps", VList []);
              (lit "answer_type", VStr (lit "string"));
              (lit "solution", VStr llm_response) ]
  end.
End Salvage.

Section Execute.
Context `{json_lib : JsonDecoder} `{url_lib : UrlParser} `{interpreter : Interpreter}.

Definition _execute_python_solution (solution_code context : pyval)
  : result pyval :=
  quiz_url ← (if truthy context
              then get context (lit "quiz_url") (VStr [])
              else Ok (VStr []));
  base_url ← (if truthy quiz_url
              then '(scheme, netloc) ← urlparse quiz_url;
                   Ok (scheme ++ lit "://" ++ netloc)
              else Ok (lit "https://tds-llm-analysis.s-anand.net"));
  (* tempfile: f.write(solution_code) *)
  script ← match solution_code with
           | VStr s => tempfile_write s ≫= λ _, Ok s
           | _ => Raise (Exn TypeError
                           (lit "write() argument must be str, not "
                            ++ type_name solution_code))
           end;
  match subprocess_run script with
  | Expired cmd =>
      Raise (Exn TimeoutExpired
               (lit "Command '" ++ cmd ++ lit "' timed out after 30 seconds"))
  | RunRaised e => Raise e
  | Exited returncode stdout stderr =>
      if negb (returncode =? 0)%Z
      then let error_output :=
             match stderr with [] => stdout | _ => stderr end in
           Raise (Exn RuntimeError
                    (lit "Subprocess execution failed: " ++ error_output))
      else Ok (VStr (strip stdout))
  end.

Definition code_keywords : list pystr :=
  [lit "import"; lit "def "; lit "for "; lit "while "; lit "="].

Definition val_is (v : pyval) (s : string) : bool :=
  match v with VStr t => str_eqb t (lit s) | _ => false end.

Definition execute_solution (solution context : pyval) : result pyval :=
  answer_type ← get solution (lit "answer_type") (VStr (lit "string"));
  solution_code ← get solution (lit "solution_code") (VStr []);
  is_code ← any_in code_keywords solution_code;
  if is_code : bool then _execute_python_solution solution_code context
  else
    let answer := solution_code in
    if val_is answer_type "number" then
      match answer with
      | VStr s =>
          let answer_str := strip (replace (lit ",") [] s) in
          if contains (lit ".") answer_str
          then match py_float answer_str with
               | Some f => Ok (VFloat f)
               | None => Ok answer
               end
          else match py_int answer_str with
               | Some z => Ok (VInt z)
               | None => Ok answer
               end
      | _ =>
          (* str() of a list or a dict opens with a bracket, which neither
             int() nor float() reads: the except branch returns answer *)
          Ok answer
      end
    else if val_is answer_type "boolean" then
      match answer with
      | VStr s =>
          Ok (VBool (existsb (str_eqb (lower s))
                       [lit "true"; lit "yes"; lit "1"]))
      | _ => Ok (VBool (truthy answer))
      end
    else if val_is answer_type "object" then
      match answer with
      | VStr s => match json_loads s with
                  | Some v => Ok v
                  | None => Ok answer
                  end
      | _ => Ok answer
      end
    else Ok answer.
End Execute.

End LLMHandler.

(** ** utils/quiz_solver.py *)

Module QuizSolver.
Import Py LLMHandler.

(** *** The parsed page *)

(** The tree [BeautifulSoup(html, 'html.parser')] builds: text and tags with
    their attribute dict and children. *)
#[warning="-register-all"]
Inductive node :=
| Text (s : pystr)
| Tag (name : pystr) (attrs : list (pystr * pystr)) (children : list node).

(** [for script in soup(["script", "style"]): script.decompose()] *)
Fixpoint decompose (names : list pystr) (n : node) : list node :=
  match n with
  | Text _ => [n]
  | Tag name attrs children =>
      if existsb (str_eqb name) names then []
      else [Tag name attrs
              ((fix go (l : list node) : list node :=
                  match l with
                  | [] => []
                  | c :: r => decompose names c ++ go r
                  end) children)]
  end.

(** The tags called [name] among a node and its descendants, in document
    order. *)
Fixpoint find_all_from (name : pystr) (n : node) : list node :=
  match n with
  | Text _ => []
  | Tag nm _ children =>
      (if str_eqb nm name then [n] else []) ++
      (fix go (l : list node) : list node :=
         match l with
         | [] => []
         | c :: r => find_all_from name c ++ go r
         end) children
  end.

(** [soup.find_all(name)] *)
Definition find_all (name : pystr) (soup : list node) : list node :=
  soup ≫= find_all_from name.

(** [tag.find_all(name)]: the descendants only. *)
Definition tag_find_all (name : pystr) (t : node) : list node :=
  match t with
  | Text _ => []
  | Tag _ _ children => find_all name children
  end.

(** [tag.get(key)] *)
Definition tag_get (key : pystr) (t : node) : option pystr :=
  match t with
  | Text _ => None
  | Tag _ attrs _ => assoc key attrs
  end.

(** The libraries and patterns [_parse_question] relies on. *)
Class Extractors := {
  BeautifulSoup : pystr -> list node;
  (** [soup.get_text(separator='\n', strip=True)] *)
  get_text : list node -> pystr;
  (** [str(table)] *)
  markup : node -> pystr;
  (** [re.findall(base64_pattern, html)]: the group of every match *)
  findall_atob : pystr -> list pystr;
  (** [base64.b64decode(b64).decode('utf-8')], [None] when it raises *)
  b64decode_utf8 : pystr -> option pystr;
  (** [re.search(submit_pattern, text, re.IGNORECASE).group(1)] *)
  search_submit_pattern : pystr -> option pystr;
  (** [re.findall(html_url_pattern, text)] *)
  findall_urls : pystr -> list pystr;
  urljoin : pystr -> pystr -> pystr
}.

Record question_data := QuestionData {
  question_text : pystr;
  submit_url : option pystr;
  file_urls : list pystr;
  tables : list pystr;
  html : pystr
}.

Definition audio_extensions : list pystr :=
  [lit ".opus"; lit ".mp3"; lit ".wav"; lit ".m4a"; lit ".ogg"; lit ".flac"].
Definition file_extensions : list pystr :=
  [lit ".pdf"; lit ".csv"; lit ".xlsx"; lit ".json"; lit ".txt";
   lit ".png"; lit ".jpg"; lit ".jpeg"].
Definition all_extensions : list pystr := audio_extensions ++ file_extensions.

Definition hardcoded_submit_url : pystr :=
  lit "https://tds-llm-analysis.s-anand.net/submit".

(** [x in l] for a list of strings. *)
Definition in_list (x : pystr) (l : list pystr) : bool := existsb (str_eqb x) l.

(** [if url not in l: l.append(url)] *)
Definition append_new (l : list pystr) (url : pystr) : list pystr :=
  if in_list url l then l else l ++ [url].

(** A non-empty attribute value. *)
Definition truthy_attr (key : pystr) (t : node) : option pystr :=
  match tag_get key t with
  | Some (c :: s) => Some (c :: s)
  | _ => None
  end.

Section ParseQuestion.
Context `{extractors : Extractors}.

(** "Make complete URL" *)
Definition complete_url (base_url src : pystr) : pystr :=
  if negb (startswith (lit "http://") src || startswith (lit "https://") src)
  then urljoin base_url src
  else src.

Definition scan_source_tag (base_url : pystr) (file_urls : list pystr)
    (source_tag : node) : list pystr :=
  match truthy_attr (lit "src") source_tag with
  | Some src => append_new file_urls (complete_url base_url src)
  | None => file_urls
  end.

Definition scan_audio_tag (base_url : pystr) (file_urls : list pystr)
    (audio_tag : node) : list pystr :=
  let file_urls :=
    match truthy_attr (lit "src") audio_tag with
    | Some src => file_urls ++ [complete_url base_url src]
    | None => file_urls
    end in
  fold_left (scan_source_tag base_url)
    (tag_find_all (lit "source") audio_tag) file_urls.

Definition has_extension (href : pystr) : bool :=
  existsb (fun ext => contains ext (lower href)) all_extensions.

Definition scan_link (base_url : pystr) (file_urls : list pystr)
    (link : node) : list pystr :=
  match tag_get (lit "href") link with
  | Some href =>
      let href := complete_url base_url href in
      if has_extension href then append_new file_urls href else file_urls
  | None => file_urls
  end.

Definition scan_video_tag (base_url : pystr) (file_urls : list pystr)
    (video_tag : node) : list pystr :=
  match truthy_attr (lit "src") video_tag with
  | Some src => append_new file_urls (complete_url base_url src)
  | None => file_urls
  end.

(** The list [file_urls] as the three loops leave it. *)
Definition collect_file_urls (soup : list node) (base_url : pystr)
  : list pystr :=
  let file_urls := [] in
  let file_urls :=
    fold_left (scan_audio_tag base_url) (find_all (lit "audio") soup) file_urls in
  let file_urls :=
    fold_left (scan_link base_url) (find_all (lit "a") soup) file_urls in
  fold_left (scan_video_tag base_url) (find_all (lit "video") soup) file_urls.

(** "Remove duplicates while preserving order" *)
Definition unique_file_urls (file_urls : list pystr) : list pystr :=
  fold_left append_new file_urls [].

Definition infer_submit_url (text : pystr) : option pystr :=
  let submit_url :=
    match search_submit_pattern text with
    | Some _ => Some hardcoded_submit_url
    | None => None
    end in
  match submit_url with
  | Some (_ :: _) => submit_url
  | _ =>
      List.find (fun url => contains (lit "submit") (lower url)
                            || contains (lit "/answer") (lower url))
        (findall_urls text)
  end.

Definition decompose_all (soup : list node) : list node :=
  soup ≫= decompose [lit "script"; lit "style"].

Definition _parse_question (html_content base_url : pystr) : question_data :=
  let soup := decompose_all (BeautifulSoup html_content) in
  let text := get_text soup in
  let decoded_texts := omap b64decode_utf8 (findall_atob html_content) in
  let text :=
    match decoded_texts with
    | [] => text
    | _ => foldr (fun d acc => d ++ [10%N] ++ acc) text decoded_texts
    end in
  {| question_text := text;
     submit_url := infer_submit_url text;
     file_urls := unique_file_urls (collect_file_urls soup base_url);
     tables := List.map markup (find_all (lit "table") soup);
     html := html_content |}.
End ParseQuestion.

(** *** Resource download *)

Record response := Response {
  status_code : Z;
  (** [response.headers.get('content-type', '')] *)
  content_type : pystr;
  content : bytes
}.

(** One [await self.http_client.get(url, timeout=30.0)]. *)
Inductive get_outcome :=
| Responded (r : response)
| GetRaised (e : exn).

(** What [pd.read_csv] keeps of a file. *)
Record dataframe := DataFrame {
  columns : list pystr;
  records : list (list (pystr * pyval))
}.

(** The decoders of downloaded bodies. *)
Class Decoders := {
  (** [transcribe_audio] catches every exception and returns a text *)
  transcribe_audio : bytes -> pystr -> pystr;
  b64encode : bytes -> pystr;
  read_csv : bytes -> result dataframe;
  (** [PdfReader(io.BytesIO(b)).pages] with [extract_text()] of each page *)
  PdfReader : bytes -> result (list (result pystr));
  (** [response.json()] *)
  response_json : bytes -> result pyval;
  (** [response.text] *)
  response_text : bytes -> pystr
}.

(** The entries of the dict [files]; the constructor stands for the
    ['type'] key together with the keys present. *)
Inductive payload :=
| PAudio (format transcription base64 : pystr)
| PCsv (df : dataframe)
| PCsvError (error : pystr)
| PPdf (num_pages : nat) (pages : list (nat * pystr))
| PPdfError (error : pystr)
| PJson (data : pyval)
| PJsonError (error : pystr)
| PBinary (text : pystr) (size : nat)
| PError (error : option pystr) (attempts : nat).

Definition payload_type (p : payload) : pystr :=
  match p with
  | PAudio _ _ _ => lit "audio"
  | PCsv _ | PCsvError _ => lit "csv"
  | PPdf _ _ | PPdfError _ => lit "pdf"
  | PJson _ | PJsonError _ => lit "json"
  | PBinary _ _ => lit "binary"
  | PError _ _ => lit "error"
  end.

(** The attributes of a [QuizSolver] object: those set by [__init__] and
    the methods of the class. *)
Inductive attribute :=
| A_llm | A_http_client | A_start_time
| M_solve_quiz_chain | M__solve_single_question | M__fetch_quiz_page
| M__parse_question | M_download_files | M_transcribe_audio
| M__parse_pdf | M__submit_answer | M_close.

Definition QuizSolver_attributes : list (pystr * attribute) :=
  [ (lit "llm", A_llm); (lit "http_client", A_http_client);
    (lit "start_time", A_start_time);
    (lit "solve_quiz_chain", M_solve_quiz_chain);
    (lit "_solve_single_question", M__solve_single_question);
    (lit "_fetch_quiz_page", M__fetch_quiz_page);
    (lit "_parse_question", M__parse_question);
    (lit "download_files", M_download_files);
    (lit "transcribe_audio", M_transcribe_audio);
    (lit "_parse_pdf", M__parse_pdf);
    (lit "_submit_answer", M__submit_answer);
    (lit "close", M_close) ].

(** [self.<name>] *)
Definition getattr_self (name : pystr) : result attribute :=
  match assoc name QuizSolver_attributes with
  | Some a => Ok a
  | None => Raise (Exn AttributeError
                     (lit "'QuizSolver' object has no attribute '"
                      ++ name ++ lit "'"))
  end.

(** The events a download leaves on the network and the clock. *)
Inductive event :=
| EvGet (url : pystr)
| EvSleep (seconds : nat).

Section Download.
Context `{decoders : Decoders}.

(** [enumerate(reader.pages)] with [page.extract_text()]. *)
Fixpoint extract_pages (i : nat) (pages : list (result pystr))
  : result (list (nat * pystr)) :=
  match pages with
  | [] => Ok []
  | page :: rest =>
      text ← page;
      more ← extract_pages (S i) rest;
      Ok ((i + 1, text) :: more)
  end.

Definition _parse_pdf (pdf_bytes : bytes) : payload :=
  match (reader_pages ← PdfReader pdf_bytes;
         pages ← extract_pages 0 reader_pages;
         Ok (PPdf (length reader_pages) pages)) with
  | Ok p => p
  | Raise e => PPdfError (exn_str e)
  end.

(** Calling an attribute of the solver with one [bytes] argument. *)
Definition call_with_bytes (a : attribute) (b : bytes) : result payload :=
  match a with
  | M__parse_pdf => Ok (_parse_pdf b)
  | _ => Raise (Exn TypeError (lit "not callable with one bytes argument"))
  end.

(** The payload stored for a response with status 200 and a body. *)
Definition store (url : pystr) (r : response) : payload :=
  if existsb (fun ext => contains ext (lower url)) audio_extensions then
    let audio_data := content r in
    let audio_text := transcribe_audio audio_data url in
    PAudio (split_last 46 url) audio_text (b64encode audio_data)
  else if contains (lit "csv") (content_type r)
          || endswith (lit ".csv") (lower url) then
    match read_csv (content r) with
    | Ok df => PCsv df
    | Raise e => PCsvError (exn_str e)
    end
  else if contains (lit "pdf") (content_type r)
          || endswith (lit ".pdf") (lower url) then
    match (parse_pdf ← getattr_self (lit "parse_pdf");
           call_with_bytes parse_pdf (content r)) with
    | Ok pdf_data => pdf_data
    | Raise e => PPdfError (exn_str e)
    end
  else if contains (lit "json") (content_type r)
          || endswith (lit ".json") (lower url) then
    match response_json (content r) with
    | Ok json_data => PJson json_data
    | Raise e => PJsonError (exn_str e)
    end
  else PBinary (response_text (content r)) (length (content r)).

Definition max_retries : nat := 2.

(** The network as the download sees it: the number of requests made so
    far and the events in the order they happened. *)
Record net := Net { requests : nat; events : list event }.

Definition sleep (seconds : nat) (st : net) : net :=
  Net (requests st) (events st ++ [EvSleep seconds]).

Definition sleep_if (b : bool) (seconds : nat) (st : net) : net :=
  if b then sleep seconds st else st.

Section Attempts.
(** The answer to the n-th request overall, made to a URL. *)
Variable http_get : nat -> pystr -> get_outcome.

(** [for attempt in range(max_retries + 1)]: the payload stored by a
    successful attempt if there is one, [last_error], the network. *)
Fixpoint attempt_loop (url : pystr) (attempts : list nat)
    (last_error : option pystr) (st : net)
  : option payload * option pystr * net :=
  match attempts with
  | [] => (None, last_error, st)
  | attempt :: rest =>
      let outcome := http_get (requests st) url in
      let st := Net (S (requests st)) (events st ++ [EvGet url]) in
      match outcome with
      | Responded r =>
          if negb (status_code r =? 200)%Z then
            attempt_loop url rest
              (Some (lit "HTTP " ++ str_of_Z (status_code r))) (sleep 1 st)
          else if Nat.eqb (length (content r)) 0 then
            attempt_loop url rest (Some (lit "Empty response")) (sleep 1 st)
          else (Some (store url r), last_error, st)
      | GetRaised e =>
          match exn_cls e with
          | AsyncioTimeoutError =>
              attempt_loop url rest (Some (lit "Timeout"))
                (sleep_if (Nat.ltb attempt max_retries) 2 st)
          | _ =>
              attempt_loop url rest (Some (exn_str e))
                (sleep_if (Nat.ltb attempt max_retries) 1 st)
          end
      end
  end.

(** One turn of [for url in urls]. *)
Definition download_one (acc : gmap pystr payload * net) (url : pystr)
  : gmap pystr payload * net :=
  let '(files, st) := acc in
  let '(stored, last_error, st) :=
    attempt_loop url (seq 0 (max_retries + 1)) None st in
  match stored with
  | Some p => (<[url := p]> files, st)
  | None => (<[url := PError last_error (max_retries + 1)]> files, st)
  end.

Definition download_files_from (st : net) (urls : list pystr)
  : gmap pystr payload * net :=
  fold_left download_one urls (∅, st).

Definition download_files (urls : list pystr) : gmap pystr payload :=
  (download_files_from (Net 0 []) urls).1.
End Attempts.
End Download.

(** *** Answer submission *)

Record QuizAnswerResponse := {
  correct : bool;
  url : option pystr;
  reason : option pystr
}.

Record QuizAnswerPayload := {
  p_email : pystr;
  p_secret : pystr;
  p_url : pystr;
  p_answer : pyval
}.

(** [re.sub(r'/quiz[-/]', '/submit-', s)] *)
Fixpoint re_sub_quiz (skip : nat) (s : pystr) : pystr :=
  match s with
  | [] => []
  | c :: t =>
      match skip with
      | S k => re_sub_quiz k t
      | O => if startswith (lit "/quiz-") s || startswith (lit "/quiz/") s
             then lit "/submit-" ++ re_sub_quiz 5 t
             else c :: re_sub_quiz 0 t
      end
  end.

(** [not submit_url] for an [Optional[str]]. *)
Definition falsy (o : option pystr) : bool :=
  match o with
  | Some (_ :: _) => false
  | _ => true
  end.

(** The URL [_submit_answer] posts to. *)
Definition submit_target `{url_lib : UrlParser} (quiz_url : pystr)
    (submit_url : option pystr) : result pystr :=
  let submit_url := Some hardcoded_submit_url in
  if falsy submit_url then
    if contains (lit "/quiz-") quiz_url || contains (lit "/quiz/") quiz_url
    then Ok (re_sub_quiz 0 quiz_url)
    else '(scheme, netloc) ← urlparse (VStr quiz_url);
         Ok (scheme ++ lit "://" ++ netloc ++ lit "/submit")
  else Ok (default [] submit_url).

(** What lies outside the process: the browser, the servers, the language
    model and the clock.  The first index is the number of the question
    being solved. *)
Class Outside := {
  (** [_fetch_quiz_page] *)
  fetch_quiz_page : nat -> pystr -> result pystr;
  (** the answer to the n-th download request of a question *)
  http_get : nat -> nat -> pystr -> get_outcome;
  (** the content of the model's reply in [_call_llm], after the reply of
      [_extract_submission_url] and the prompt built from the arguments *)
  llm_reply : nat -> question_data -> option (gmap pystr payload) ->
              pystr -> pystr -> result pystr;
  json_dumps : pyval -> pystr;
  (** the POST of [_submit_answer] with [raise_for_status], [json()] and
      the validation of the response model *)
  http_post : nat -> pystr -> QuizAnswerPayload -> result QuizAnswerResponse;
  (** [(datetime.now() - self.start_time)] in microseconds, read at the top
      of the iteration for the given question *)
  elapsed_us : nat -> Z
}.

(** [settings] *)
Record Settings := { QUIZ_TIMEOUT_SECONDS : Z; MAX_RETRIES : Z }.
Definition default_settings : Settings :=
  {| QUIZ_TIMEOUT_SECONDS := 170; MAX_RETRIES := 3 |}.

(** The lines [solve_quiz_chain] itself hands to [log]. *)
Inductive log_line :=
| LogStart (initial_url : pystr)
| LogQuestion (question_count : nat) (elapsed : Z)
| LogUrl (current_url : pystr)
| LogTimeout (seconds : Z)
| LogCorrect
| LogCompleted
| LogIncorrect (reason : option pystr)
| LogMovingOn
| LogNoMore
| LogError (e : pystr)
| LogEnded
| LogAttempted (question_count : nat).

(** How the [while] loop was left. *)
Inductive loop_exit :=
| ConditionFalse
| BreakTimeout
| BreakCompleted
| BreakNoMore
| BreakError (e : exn).

Record chain_run := ChainRun {
  exit : loop_exit;
  question_count : nat;
  (** the URLs handed to [_solve_single_question], in order *)
  solved : list pystr;
  log : list log_line
}.

Section Chain.
Context `{json_lib : JsonDecoder} `{unicode_lib : UnicodeData} `{url_lib : UrlParser} `{interpreter : Interpreter}
        `{extractors : Extractors} `{decoders : Decoders} `{outside : Outside}.
Variable settings : Settings.

Definition _submit_answer (n : nat) (email secret quiz_url : pystr)
    (submit_url : option pystr) (answer : pyval)
  : result QuizAnswerResponse :=
  submit_url ← submit_target quiz_url submit_url;
  let payload :=
    {| p_email := email; p_secret := secret; p_url := quiz_url;
       p_answer := match answer with
                   | VStr _ | VInt _ | VFloat _ | VBool _ => answer
                   | _ => VStr (json_dumps answer)
                   end |} in
  http_post n submit_url payload.

Definition analyze_quiz (n : nat) (question : question_data)
    (downloaded_files : option (gmap pystr payload))
    (page_content quiz_url : pystr) : result pyval :=
  match quiz_url, page_content with
  | _ :: _, _ :: _ =>
      llm_response ← llm_reply n question downloaded_files page_content quiz_url;
      Ok (_process_llm_response llm_response)
  | _, _ =>
      Raise (Exn UnboundLocalError
               (lit "cannot access local variable 'question_details' where it is not associated with a value"))
  end.

(** [question_data] as the dict handed to [execute_solution]; the entry
    ['downloaded_files'] is left out, no key but ['quiz_url'] is read. *)
Definition as_context (q : question_data) : pyval :=
  VDict [ (lit "question_text", VStr (question_text q));
          (lit "submit_url", from_option VStr VNone (submit_url q));
          (lit "file_urls", VList (List.map VStr (file_urls q)));
          (lit "tables", VList (List.map VStr (tables q)));
          (lit "html", VStr (html q)) ].

Definition _solve_single_question (n : nat) (email secret quiz_url : pystr)
  : result QuizAnswerResponse :=
  page_content ← fetch_quiz_page n quiz_url;
  let question := _parse_question page_content quiz_url in
  let downloaded_files :=
    match file_urls question with
    | [] => None
    | urls => Some (download_files (http_get n) urls)
    end in
  solution ← analyze_quiz n question downloaded_files page_content quiz_url;
  answer ← execute_solution solution (as_context question);
  _submit_answer n email secret quiz_url (submit_url question) answer.

(** The [while current_url:] loop.  [fuel] bounds the number of
    iterations; [None] means it ran out. *)
Fixpoint chain_loop (fuel : nat) (email secret : pystr)
    (current_url : option pystr) (question_count : nat)
    (solved : list pystr) (log : list log_line) : option chain_run :=
  match fuel with
  | O => None
  | S fuel =>
      match current_url with
      | Some ((_ :: _) as current_url) =>
          let question_count := S question_count in
          let elapsed := elapsed_us question_count in
          let log := log ++ [LogQuestion question_count elapsed;
                             LogUrl current_url] in
          if (elapsed >? QUIZ_TIMEOUT_SECONDS settings * 1000000)%Z then
            Some (ChainRun BreakTimeout question_count solved
                    (log ++ [LogTimeout (QUIZ_TIMEOUT_SECONDS settings)]))
          else
            let solved := solved ++ [current_url] in
            match _solve_single_question question_count email secret
                    current_url with
            | Ok result =>
                if correct result then
                  let log := log ++ [LogCorrect] in
                  if falsy (url result) then
                    Some (ChainRun BreakCompleted question_count solved
                            (log ++ [LogCompleted]))
                  else chain_loop fuel email secret (url result)
                         question_count solved log
                else
                  let log := log ++ [LogIncorrect (reason result)] in
                  if negb (falsy (url result)) then
                    chain_loop fuel email secret (url result)
                      question_count solved (log ++ [LogMovingOn])
                  else
                    Some (ChainRun BreakNoMore question_count solved
                            (log ++ [LogNoMore]))
            | Raise e =>
                Some (ChainRun (BreakError e) question_count solved
                        (log ++ [LogError (exn_str e)]))
            end
      | _ => Some (ChainRun ConditionFalse question_count solved log)
      end
  end.

(** [solve_quiz_chain]: nothing outside the [try] of the loop raises, so
    a run that ends returns normally. *)
Definition solve_quiz_chain (fuel : nat) (email secret initial_url : pystr)
  : option (result chain_run) :=
  run ← chain_loop fuel email secret (Some initial_url) 0 []
        [LogStart initial_url];
  Some (Ok (ChainRun (exit run) (question_count run) (solved run)
              (log run ++ [LogEnded; LogAttempted (question_count run)]))).
End Chain.

End QuizSolver.

(** ** main.py *)

Module Main.
Import Py LLMHandler QuizSolver.

(** [active_tasks]: task id to the dict of the task. *)
Abbreviation tasks := (gmap pystr (gmap pystr pyval)).

(** [if task_id in active_tasks: active_tasks[task_id][key] = value] *)
Definition set_field (task_id key : pystr) (value : pyval) (active_tasks : tasks)
  : tasks :=
  alter (fun task => <[key := value]> task) task_id active_tasks.

(** The [try]/[except] of [solve_quiz_background], given how the call of
    [solve_quiz_chain] ended; [now] is [datetime.now().isoformat()]. *)
Definition record_outcome (task_id now : pystr) (outcome : result chain_run)
    (active_tasks : tasks) : tasks :=
  let active_tasks := set_field task_id (lit "status") (VStr (lit "solving"))
                        active_tasks in
  match outcome with
  | Ok _ =>
      set_field task_id (lit "completed_at") (VStr now)
        (set_field task_id (lit "status") (VStr (lit "completed")) active_tasks)
  | Raise e =>
      set_field task_id (lit "failed_at") (VStr now)
        (set_field task_id (lit "error") (VStr (exn_str e))
           (set_field task_id (lit "status") (VStr (lit "failed")) active_tasks))
  end.

Section Background.
Context `{json_lib : JsonDecoder} `{unicode_lib : UnicodeData} `{url_lib : UrlParser} `{interpreter : Interpreter}
        `{extractors : Extractors} `{decoders : Decoders} `{outside : Outside}.
Variable settings : Settings.

(** [active_tasks] when the [try] statement of [solve_quiz_background] is
    left, before the [finally] clause sleeps and deletes the task. *)
Definition solve_quiz_background (fuel : nat) (email secret url task_id now : pystr)
    (active_tasks : tasks) : option tasks :=
  outcome ← solve_quiz_chain settings fuel email secret url;
  Some (record_outcome task_id now outcome active_tasks).

(** [handle_quiz] registers the task before it starts the background
    work. *)
Definition new_task (url started_at : pystr) : gmap pystr pyval :=
  <[lit "status" := VStr (lit "processing")]>
    (<[lit "started_at" := VStr started_at]>
       (<[lit "url" := VStr url]> ∅)).
End Background.

End Main.

(** ** llm_handler.py: the wrapper [URLResolvingRequests] *)

Module Requests.
Import Py.

(** [URLResolvingRequests._resolve_url], for a wrapper built on [base_url]. *)
Definition _resolve_url (base_url url : pystr) : pystr :=
  match url with
  | [] => url
  | _ =>
      if startswith (lit "http://") url || startswith (lit "https://") url
      then url
      else if startswith (lit "/") url then base_url ++ url
      else base_url ++ lit "/" ++ url
  end.

End Requests.

(** ** models.py *)

Module Models.
Import Py.

(** [str.lower] on arbitrary text (the case mapping of the Unicode
    database). *)
Class CaseMapping := { str_lower : pystr -> pystr }.

Record QuizRequest := {
  email : pystr;
  secret : pystr;
  url : pystr
}.

(** The validator of the field [email]. *)
Definition validate_email `{case_mapping : CaseMapping} (v : pystr)
  : result pystr :=
  if negb (contains (lit "@") v)
  then Raise (Exn ValueError (lit "Invalid email format"))
  else Ok (strip (str_lower v)).

(** The validator of the field [url]. *)
Definition validate_url (v : pystr) : result pystr :=
  if negb (startswith (lit "http://") v || startswith (lit "https://") v)
  then Raise (Exn ValueError (lit "URL must start with http:// or https://"))
  else Ok (strip v).

End Models.

(** ** main.py: the log, the task registry and the endpoints *)

Module Service.
Import Py Models.

(** An entry of [quiz_logs]. *)
Record log_entry := LogEntry {
  timestamp : pystr;
  message : pystr;
  level : pystr
}.

(** [deque(maxlen=200)] *)
Definition maxlen : nat := 200.

(** [deque.append] on a bounded deque: a full deque drops its oldest
    entry. *)
Definition deque_append {A : Type} (q : list A) (x : A) : list A :=
  if Nat.ltb (length q) maxlen then q ++ [x] else drop 1 q ++ [x].

(** [datetime.now()] read for the n-th time: its [isoformat()] and the text
    of its [timestamp()]. *)
Class Calendar := {
  isoformat : nat -> pystr;
  timestamp_text : nat -> pystr
}.

(** A call handed to [background_tasks.add_task]. *)
Record background_call := {
  bg_email : pystr;
  bg_secret : pystr;
  bg_url : pystr;
  bg_task_id : pystr
}.

(** The state of the process: the two module-level containers, the calls
    scheduled so far and the number of clock readings made. *)
Record state := State {
  quiz_logs : list log_entry;
  active_tasks : gmap pystr (gmap pystr pyval);
  scheduled : list background_call;
  clock : nat
}.

(** [settings.STUDENT_EMAIL] and [settings.STUDENT_SECRET] *)
Record Credentials := { STUDENT_EMAIL : pystr; STUDENT_SECRET : pystr }.

(** What an endpoint hands back. *)
Inductive reply :=
| HTTPException (status_code : Z) (detail : pystr)
| JSONResponse (status_code : Z) (content : list (pystr * pyval)).

(** The marks that open the messages, as the source file has them. *)
Definition mark_cross : pystr := [8218; 249; 229]%N.
Definition mark_received : pystr := [63743; 252; 236; 174]%N.
Definition mark_cleared : pystr := [63743; 252; 243; 235; 212; 8719; 232]%N.

(** [l[start:]] for an integer [start]. *)
Definition slice_from {A : Type} (start : Z) (l : list A) : list A :=
  if (start <? 0)%Z
  then drop (Z.to_nat (Z.max (Z.of_nat (length l) + start) 0)) l
  else drop (Z.to_nat start) l.

Section Endpoints.
Context `{calendar : Calendar} `{case_mapping : CaseMapping}.
Variable settings : Credentials.

(** [add_log]; the copy of the message sent to the console logger is left
    out. *)
Definition add_log (message level : pystr) (st : state) : state :=
  let timestamp := isoformat (clock st) in
  State (deque_append (quiz_logs st) (LogEntry timestamp message level))
    (active_tasks st) (scheduled st) (S (clock st)).

(** [GET /logs] *)
Definition get_logs (limit : Z) (st : state) : list log_entry :=
  slice_from (- limit) (quiz_logs st).

(** [DELETE /logs] *)
Definition clear_logs (st : state) : list (pystr * pyval) * state :=
  let st := State [] (active_tasks st) (scheduled st) (clock st) in
  let st := add_log (mark_cleared ++ lit " Logs cleared via API")
              (lit "info") st in
  ([ (lit "message", VStr (lit "Logs cleared"));
     (lit "timestamp", VStr (isoformat (clock st))) ],
   State (quiz_logs st) (active_tasks st) (scheduled st) (S (clock st))).

(** [GET /status]: the entry [recent_logs]. *)
Definition recent_logs (st : state) : list log_entry :=
  slice_from (-10) (quiz_logs st).

(** [POST /quiz] on a request that passed validation. *)
Definition handle_quiz (request : QuizRequest) (st : state) : reply * state :=
  if negb (str_eqb (secret request) (STUDENT_SECRET settings)) then
    (HTTPException 403 (lit "Invalid secret"),
     add_log (mark_cross ++ lit " Invalid secret attempt from " ++ email request)
       (lit "warning") st)
  else if negb (str_eqb (str_lower (email request))
                  (str_lower (STUDENT_EMAIL settings))) then
    (HTTPException 403 (lit "Email mismatch"),
     add_log (mark_cross ++ lit " Email mismatch: " ++ email request)
       (lit "warning") st)
  else
    let task_id := lit "quiz_" ++ timestamp_text (clock st) in
    let task := Main.new_task (url request) (isoformat (S (clock st))) in
    let st := State (quiz_logs st) (<[task_id := task]> (active_tasks st))
                (scheduled st) (S (S (clock st))) in
    let st := add_log (mark_received ++ lit " Received quiz request: "
                       ++ url request) (lit "info") st in
    let st := State (quiz_logs st) (active_tasks st)
                (scheduled st ++
                   [{| bg_email := email request; bg_secret := secret request;
                       bg_url := url request; bg_task_id := task_id |}])
                (clock st) in
    (JSONResponse 200
       [ (lit "status", VStr (lit "received"));
         (lit "message",
          VStr (lit "Quiz processing started for " ++ url request));
         (lit "task_id", VStr task_id);
         (lit "timestamp", VStr (isoformat (clock st))) ],
     State (quiz_logs st) (active_tasks st) (scheduled st) (S (clock st))).
End Endpoints.

(** The end of the [finally] clause of [solve_quiz_background]:
    [if task_id in active_tasks: del active_tasks[task_id]]. *)
Definition forget_task (task_id : pystr)
    (active_tasks : gmap pystr (gmap pystr pyval))
  : gmap pystr (gmap pystr pyval) :=
  delete task_id active_tasks.

End Service.

(* ===================================================================== *)
(** * Part II: the specification's notions                                *)
(* ===================================================================== *)

Module Spec.
Import Py LLMHandler QuizSolver.


(** The characters the clean-up leaves none of. *)
Definition newline : N := 10.

(** Strategies tried in order, stopping at the first success. *)
Fixpoint first_success {A B : Type} (strategies : list (A -> option B)) (x : A)
  : option B :=
  match strategies with
  | [] => None
  | f :: rest =>
      match f x with
      | Some b => Some b
      | None => first_success rest x
      end
  end.

Section SalvageStrategies.
Context `{json_lib : JsonDecoder} `{unicode_lib : UnicodeData}.

(** (a) direct JSON decode *)
Definition decode_direct (text : pystr) : option pyval := json_loads text.
(** (b) decode of the first brace-delimited substring, greedy *)
Definition decode_braces (text : pystr) : option pyval :=
  re_search_braces text ≫= json_loads.
(** (c) decode after the clean-up *)
Definition decode_cleaned (text : pystr) : option pyval :=
  json_loads (cleaned_text text).

Definition salvage (text : pystr) : option pyval :=
  first_success [decode_direct; decode_braces; decode_cleaned] text.
End SalvageStrategies.

(** The text the strategies are applied to: the response without the
    surrounding whitespace and, when it then opens with a code fence,
    without the backticks at both ends and without the first line. *)
Definition salvage_input (response : pystr) : pystr :=
  let stripped := strip response in
  if startswith backticks3 stripped then
    let inner := strip_chars [96%N] stripped in
    if contains [newline] inner then after_first newline inner else inner
  else stripped.

(** A plan whose [solution_code] is a string with none of the markers of
    code: the field is the raw answer. *)
Definition raw_answer (plan : list (pystr * pyval)) (s : pystr) : Prop :=
  assoc (lit "solution_code") plan = Some (VStr s) ∧
  Forall (λ kw, contains kw s = false) code_keywords.

(** A degraded plan: the keys the claim names. *)
Definition degraded_plan_of (text : pystr) (plan : pyval) : Prop :=
  get plan (lit "solution") VNone = Ok (VStr text) ∧
  get plan (lit "answer_type") VNone = Ok (VStr (lit "string")) ∧
  (∀ d, plan = VDict d → assoc (lit "solution_code") d = None).


(** The decimal value of a float numeral. *)
Definition float_is (f : pyfloat) (negative : bool) (num den : Z) : Prop :=
  fl_neg f = negative ∧
  (fl_digits f * 10 ^ (Z.max 0 (fl_exp10 f)) * den
   = num * 10 ^ (Z.max 0 (- fl_exp10 f)))%Z.

(** The first occurrence of every element, in order of appearance. *)
Fixpoint first_seen (l : list pystr) : list pystr :=
  match l with
  | [] => []
  | x :: rest => x :: filter (λ y, y ≠ x) (first_seen rest)
  end.

(** [u] comes before [v] in [l]: some occurrence of [u] has no [v] before
    it. *)
Definition seen_before (l : list pystr) (u v : pystr) : Prop :=
  ∃ l1 l2, l = l1 ++ u :: l2 ∧ v ∉ l1.

Section Discovery.
Context `{extractors : Extractors}.

(** The links of one [<audio>] element: its [src], then the [src] of the
    [<source>] elements inside it. *)
Definition audio_links (base_url : pystr) (audio_tag : node) : list pystr :=
  option_list (complete_url base_url <$> truthy_attr (lit "src") audio_tag)
  ++ omap (λ source_tag,
             complete_url base_url <$> truthy_attr (lit "src") source_tag)
       (tag_find_all (lit "source") audio_tag).

(** The targets of the [<a href>] elements that name an extension. *)
Definition anchor_links (base_url : pystr) (soup : list node) : list pystr :=
  filter (λ href, has_extension href)
    (omap (λ link, complete_url base_url <$> tag_get (lit "href") link)
       (find_all (lit "a") soup)).

(** The [src] of the [<video>] elements. *)
Definition video_links (base_url : pystr) (soup : list node) : list pystr :=
  omap (λ video_tag,
          complete_url base_url <$> truthy_attr (lit "src") video_tag)
    (find_all (lit "video") soup).

(** Every link of the page, in the order of discovery. *)
Definition discovered (base_url : pystr) (soup : list node) : list pystr :=
  (find_all (lit "audio") soup ≫= audio_links base_url)
  ++ anchor_links base_url soup ++ video_links base_url soup.
End Discovery.

(** [src] is the value of a link attribute of the page: the [src] of an
    [<audio>], of a [<source>] inside an [<audio>], or of a [<video>], or the
    [href] of an [<a>]. *)
Definition link_attribute (soup : list node) (src : pystr) : Prop :=
  (∃ audio_tag, audio_tag ∈ find_all (lit "audio") soup ∧
     (tag_get (lit "src") audio_tag = Some src ∨
      ∃ source_tag, source_tag ∈ tag_find_all (lit "source") audio_tag ∧
                    tag_get (lit "src") source_tag = Some src)) ∨
  (∃ link, link ∈ find_all (lit "a") soup ∧
           tag_get (lit "href") link = Some src) ∨
  (∃ video_tag, video_tag ∈ find_all (lit "video") soup ∧
                tag_get (lit "src") video_tag = Some src).

(** A link that is kept as it stands. *)
Definition is_absolute (src : pystr) : bool :=
  startswith (lit "http://") src || startswith (lit "https://") src.

(** An attempt that moves to the next one: a transport error, a status
    other than 200, or a body of length zero. *)
Definition failing (o : get_outcome) : bool :=
  match o with
  | Responded r => negb (status_code r =? 200)%Z || Nat.eqb (length (content r)) 0
  | GetRaised _ => true
  end.

(** The error a failing attempt leaves in [last_error]. *)
Definition error_of (o : get_outcome) : pystr :=
  match o with
  | Responded r =>
      if negb (status_code r =? 200)%Z
      then lit "HTTP " ++ str_of_Z (status_code r)
      else lit "Empty response"
  | GetRaised e =>
      match exn_cls e with
      | AsyncioTimeoutError => lit "Timeout"
      | _ => exn_str e
      end
  end.

(** A [Failed] payload. *)
Definition is_failed (p : payload) : bool :=
  match p with PError _ _ => true | _ => false end.

(** A document payload: the page count and the text of every page in
    order. *)
Definition is_document (p : payload) : bool :=
  match p with PPdf _ _ => true | _ => false end.

(** The deadline in the unit of the clock. *)
Definition deadline_us (settings : Settings) : Z :=
  QUIZ_TIMEOUT_SECONDS settings * 1000000.

(** A run counts its questions well from question [from] on: every question
    attempted was started within the deadline, and [question_count] is the
    number of questions attempted, or one more when the loop was left by the
    deadline. *)
Definition counted `{outside : Outside} (settings : Settings) (from : nat)
    (run : chain_run) : Prop :=
  match exit run with
  | BreakTimeout =>
      question_count run = S (length (solved run)) ∧
      (elapsed_us (question_count run) > deadline_us settings)%Z
  | _ => question_count run = length (solved run)
  end ∧
  ∀ i, from ≤ i < length (solved run) →
       (elapsed_us (S i) ≤ deadline_us settings)%Z.

(** A target ends with a recognized extension. *)
Definition ends_with_extension (href : pystr) : bool :=
  existsb (λ ext, endswith ext href) all_extensions.

End Spec.

(** Concrete oracles, for running the embedding on examples. *)

Module Scenario.
Import Py LLMHandler QuizSolver.

(** A decoder that rejects every text. *)
Definition rejecting_decoder : JsonDecoder := {| json_loads := λ _, None |}.

(** Printable ASCII. *)
Definition ascii_printable : UnicodeData :=
  {| isprintable := λ c, (32 <=? c)%N && (c <? 127)%N |}.

(** A URL parser that is never reached in the examples. *)
Definition no_urlparse : UrlParser :=
  {| urlparse := λ _, Raise (Exn ValueError (lit "unused")) |}.

(** An interpreter in which every script prints a traceback and exits
    with status 1. *)
Definition failing_interpreter : Interpreter :=
  {| tempfile_write := λ _, Ok ();
     subprocess_run := λ _, Exited 1 [] (lit "Traceback: boom") |}.

(** [urljoin] on a reference that is a plain file name: the base up to its
    last slash, then the name. *)
Definition sibling (base_url name : pystr) : pystr :=
  reverse (default [] (from_first 47 (reverse base_url))) ++ name.

(** A page with one anchor whose target carries a query string, read by a
    parser that knows this page only. *)
Definition anchor_with_query : pystr :=
  lit "https://x.test/data.csv?download=1".

Definition one_anchor_page : Extractors :=
  {| BeautifulSoup := λ _,
       [Tag (lit "a") [(lit "href", anchor_with_query)] [Text (lit "data")]];
     get_text := λ _, lit "data";
     markup := λ _, [];
     findall_atob := λ _, [];
     b64decode_utf8 := λ _, None;
     search_submit_pattern := λ _, None;
     findall_urls := λ _, [];
     urljoin := sibling |}.

(** A page with a relative anchor, listed twice, and an audio element. *)
Definition media_page : Extractors :=
  {| BeautifulSoup := λ _,
       [Tag (lit "audio") [(lit "src", lit "clip.mp3")]
          [Tag (lit "source") [(lit "src", lit "clip.mp3")] []];
        Tag (lit "a") [(lit "href", lit "data.csv")] [];
        Tag (lit "a") [(lit "href", lit "data.csv")] [];
        Tag (lit "a") [(lit "href", lit "about.html")] []];
     get_text := λ _, [];
     markup := λ _, [];
     findall_atob := λ _, [];
     b64decode_utf8 := λ _, None;
     search_submit_pattern := λ _, None;
     findall_urls := λ _, [];
     urljoin := sibling |}.

(** Decoders for a one-page document. *)
Definition one_page_decoders : Decoders :=
  {| transcribe_audio := λ _ _, lit "transcript";
     b64encode := λ _, [];
     read_csv := λ _, Raise (Exn ValueError (lit "no columns"));
     PdfReader := λ _, Ok [Ok (lit "page one")];
     response_json := λ _, Raise (Exn ValueError (lit "not json"));
     response_text := λ b, b |}.

Definition pdf_url : pystr := lit "https://x.test/doc.pdf".
Definition pdf_response : response :=
  {| status_code := 200; content_type := lit "application/pdf";
     content := lit "%PDF-1.4" |}.

(** A server that answers 500 twice and then 200 with a body, and one that
    answers 500 whatever is asked. *)
Definition error_500 : get_outcome :=
  Responded {| status_code := 500; content_type := lit "text/html"; content := [] |}.
Definition flaky_server (n : nat) (url : pystr) : get_outcome :=
  if Nat.ltb n 2 then error_500
  else Responded {| status_code := 200; content_type := lit "text/plain";
                    content := lit "hello" |}.
Definition broken_server (n : nat) (url : pystr) : get_outcome := error_500.

(** A page without links. *)
Definition bare_page : Extractors :=
  {| BeautifulSoup := λ _, [Tag (lit "p") [] [Text (lit "What is 6 times 7?")]];
     get_text := λ _, lit "What is 6 times 7?";
     markup := λ _, [];
     findall_atob := λ _, [];
     b64decode_utf8 := λ _, None;
     search_submit_pattern := λ _, None;
     findall_urls := λ _, [];
     urljoin := sibling |}.

(** A decoder that reads every reply as the given plan. *)
Definition decoder_of (plan : pyval) : JsonDecoder :=
  {| json_loads := λ _, Some plan |}.

(** The planner answers with code. *)
Definition code_plan : pyval :=
  VDict [(lit "analysis", VStr (lit "compute it"));
         (lit "answer_type", VStr (lit "number"));
         (lit "solution_code", VStr (lit "import sys; sys.exit(1)"))].

(** The planner answers directly. *)
Definition direct_plan : pyval :=
  VDict [(lit "analysis", VStr (lit "simple"));
         (lit "answer_type", VStr (lit "number"));
         (lit "solution_code", VStr (lit "42"))].

Definition quiz_1 : pystr := lit "https://x.test/quiz-1".
Definition quiz_2 : pystr := lit "https://x.test/quiz-2".
Definition explicit_submit_url : pystr := lit "https://x.test/api/answer".

(** One second into the run, every answer judged correct, a second
    question after the first. *)
Definition quick_world : Outside :=
  {| fetch_quiz_page := λ _ _, Ok (lit "<p>What is 6 times 7?</p>");
     http_get := λ _, broken_server;
     llm_reply := λ _ _ _ _ _, Ok (lit "{}");
     json_dumps := λ _, [];
     http_post := λ n _ _,
       Ok {| correct := true;
             url := if Nat.eqb n 1 then Some quiz_2 else None;
             reason := None |};
     elapsed_us := λ _, 1000000%Z |}.

(** The same service, but the first question takes 171 seconds, one more
    than the deadline of 170 allows. *)
Definition slow_world : Outside :=
  {| fetch_quiz_page := fetch_quiz_page (Outside := quick_world);
     http_get := http_get (Outside := quick_world);
     llm_reply := llm_reply (Outside := quick_world);
     json_dumps := json_dumps (Outside := quick_world);
     http_post := http_post (Outside := quick_world);
     elapsed_us := λ n, if Nat.eqb n 1 then 0%Z else 171000000%Z |}.

(** The registry of tasks when the background work of task [t1] starts. *)
Definition task_id : pystr := lit "quiz_1762160000.0".
Definition registered : gmap pystr (gmap pystr pyval) :=
  <[task_id := Main.new_task quiz_1 (lit "2025-11-03T08:53:20")]> ∅.

Definition email : pystr := lit "student@x.test".
Definition secret : pystr := lit "s3cret".

(** [solve_quiz_chain] and [solve_quiz_background] on the first question,
    for a planner whose reply decodes to [plan], in a given world. *)
Definition run_chain (plan : pyval) (world : Outside) (fuel : nat)
  : option (result chain_run) :=
  @solve_quiz_chain (decoder_of plan) ascii_printable no_urlparse
    failing_interpreter bare_page one_page_decoders world
    default_settings fuel email secret quiz_1.

Definition run_background (plan : pyval) (world : Outside) (fuel : nat)
  : option (gmap pystr (gmap pystr pyval)) :=
  @Main.solve_quiz_background (decoder_of plan) ascii_printable no_urlparse
    failing_interpreter bare_page one_page_decoders world
    default_settings fuel email secret quiz_1 task_id
    (lit "2025-11-03T08:53:25") registered.

(** The entry of a task under a key. *)
Definition task_field (active_tasks : gmap pystr (gmap pystr pyval))
    (key : string) : option pyval :=
  active_tasks !! task_id ≫= λ task, task !! lit key.

End Scenario.

(** Notions for the endpoints of the service. *)

Module SpecService.
Import Py Models Service.

(** The last [n] elements of a list. *)
Definition last_n {A : Type} (n : nat) (l : list A) : list A :=
  drop (length l - n) l.

(** What a reader of the log sees of an entry besides its time. *)
Definition logged (e : log_entry) : pystr * pystr := (message e, level e).

(** A run of calls of [add_log], one per message and level. *)
Definition log_all `{calendar : Calendar} (entries : list (pystr * pystr))
    (st : state) : state :=
  fold_left (λ st e, add_log e.1 e.2 st) entries st.

(** The request passes the two checks of [handle_quiz]. *)
Definition authorized `{case_mapping : CaseMapping} (settings : Credentials)
    (request : QuizRequest) : Prop :=
  secret request = STUDENT_SECRET settings ∧
  str_lower (email request) = str_lower (STUDENT_EMAIL settings).

End SpecService.

Module ScenarioService.
Import Py Models Service.

(** A clock that reads the same instant every time. *)
Definition stopped_calendar : Calendar :=
  {| isoformat := λ _, lit "2025-11-03T08:53:20";
     timestamp_text := λ _, lit "1762160000.0" |}.

(** The case mapping of ASCII. *)
Definition ascii_case : CaseMapping := {| str_lower := lower |}.

Definition student : Credentials :=
  {| STUDENT_EMAIL := lit "Student@x.test"; STUDENT_SECRET := lit "s3cret" |}.

Definition good_request : QuizRequest :=
  {| email := lit "student@x.test"; secret := lit "s3cret";
     url := lit "https://x.test/quiz-1" |}.

Definition idle : state := State [] ∅ [] 0.

End ScenarioService.

(** Notions for the chain. *)

Module SpecChain.
Import Py LLMHandler QuizSolver.

Section WithWorld.
Context `{json_lib : JsonDecoder} `{unicode_lib : UnicodeData} `{url_lib : UrlParser} `{interpreter : Interpreter}
        `{extractors : Extractors} `{decoders : Decoders} `{outside : Outside}.

(** Every URL of the list but the first is the next URL that the server
    gave in its answer to the question before it; the i-th URL is solved
    as question number i. *)
Definition linked (email secret : pystr) (urls : list pystr) : Prop :=
  ∀ i u v, urls !! i = Some u → urls !! S i = Some v →
    ∃ r, _solve_single_question (S i) email secret u = Ok r ∧ url r = Some v.
End WithWorld.

End SpecChain.

(** Notions for plans and replies. *)

Module SpecExecute.
Import Py LLMHandler.

(** The text holds one of the markers by which [execute_solution] tells
    code from an answer. *)
Definition looks_like_code (s : pystr) : bool :=
  existsb (λ kw, contains kw s) code_keywords.

(** JSON values that are no containers: [null], a boolean, a number. *)
Definition scalar (v : pyval) : bool :=
  match v with
  | VNone | VBool _ | VInt _ | VFloat _ => true
  | _ => false
  end.

Definition is_dict (v : pyval) : bool :=
  match v with VDict _ => true | _ => false end.

(** A reply in a code fence: three backticks, a tag, a line break, the
    body, three backticks. *)
Definition fenced (tag body : pystr) : pystr :=
  backticks3 ++ tag ++ [10%N] ++ body ++ backticks3.

(** The character [strip("`")] removes. *)
Definition is_backtick (c : N) : bool := existsb (N.eqb c) [96%N].

End SpecExecute.

Module ScenarioExecute.
Import Py LLMHandler.

(** An interpreter in which every script prints 42 and exits with
    status 0. *)
Definition printing_interpreter : Interpreter :=
  {| tempfile_write := λ _, Ok ();
     subprocess_run := λ _, Exited 0 (lit "42" ++ [10%N]) [] |}.

(** A plan of type number whose answer is computed by a script. *)
Definition script_plan : list (pystr * pyval) :=
  [(lit "answer_type", VStr (lit "number"));
   (lit "solution_code", VStr (lit "import math; print(6 * 7)"))].

(** A plan without code. *)
Definition null_plan : list (pystr * pyval) :=
  [(lit "answer_type", VStr (lit "string"));
   (lit "solution_code", VNone)].

End ScenarioExecute.

(** Notions for the effects of a download. *)

Module SpecDownload.
Import Py LLMHandler QuizSolver.





End SpecDownload.

(** Decimal numerals. *)

Module SpecNumerals.
Import Py.

(** The digits of a decimal numeral, most significant first. *)
Fixpoint uint_digits (d : Decimal.uint) : list Z :=
  match d with
  | Decimal.Nil => []
  | Decimal.D0 l => 0%Z :: uint_digits l
  | Decimal.D1 l => 1%Z :: uint_digits l
  | Decimal.D2 l => 2%Z :: uint_digits l
  | Decimal.D3 l => 3%Z :: uint_digits l
  | Decimal.D4 l => 4%Z :: uint_digits l
  | Decimal.D5 l => 5%Z :: uint_digits l
  | Decimal.D6 l => 6%Z :: uint_digits l
  | Decimal.D7 l => 7%Z :: uint_digits l
  | Decimal.D8 l => 8%Z :: uint_digits l
  | Decimal.D9 l => 9%Z :: uint_digits l
  end.

(** A character of the text of an integer: a digit or the minus sign. *)
Definition numeral_char (c : N) : bool :=
  ((48 <=? c) && (c <=? 57) || (c =? 45))%N.

(** The number of digits of the decimal numeral of an integer. *)
Definition decimal_digits (z : Z) : nat := length (str_of_Z (Z.abs z)).

End SpecNumerals.

(* ===================================================================== *)
(** * Part III: properties                                                *)
(* ===================================================================== *)

(** ** Strings *)

Module StringFacts.
Import Py.

Lemma bind_Ok {A B : Type} (a : A) (f : A → result B) : Ok a ≫= f = f a.
Proof. reflexivity. Qed.

Lemma bind_Raise {A B : Type} (e : exn) (f : A → result B) :
  Raise e ≫= f = Raise e.
Proof. reflexivity. Qed.

Lemma str_eqb_eq (a b : pystr) : str_eqb a b = true ↔ a = b.
Proof. unfold str_eqb. apply bool_decide_eq_true. Qed.

Lemma str_eqb_refl (a : pystr) : str_eqb a a = true.
Proof. by apply str_eqb_eq. Qed.

Lemma str_eqb_neq (a b : pystr) : str_eqb a b = false ↔ a ≠ b.
Proof. unfold str_eqb. apply bool_decide_eq_false. Qed.





Lemma lstrip_by_chars f (s : pystr) (x : N) : x ∈ lstrip_by f s → x ∈ s.
Proof.
  induction s as [|c t IH]; cbn; [done|].
  destruct (f c); [|done]. intros Hx. right. by apply IH.
Qed.

Lemma strip_by_chars f (s : pystr) (x : N) : x ∈ strip_by f s → x ∈ s.
Proof.
  unfold strip_by, rstrip_by. rewrite elem_of_reverse. intros Hx.
  apply lstrip_by_chars in Hx. rewrite elem_of_reverse in Hx.
  by apply lstrip_by_chars in Hx.
Qed.

End StringFacts.

(** ** Salvage of the planner's response *)

Module SalvageFacts.
Import Py LLMHandler Spec StringFacts.









End SalvageFacts.

Module SalvageTheorems.
Import Py LLMHandler Spec StringFacts SalvageFacts.

Section WithDecoder.
Context `{json_lib : JsonDecoder} `{unicode_lib : UnicodeData}.




Lemma _parse_json_response_salvage (text : pystr) :
  match salvage text with
  | Some v => _parse_json_response text = Ok v
  | None => ∃ plan, _parse_json_response text = Ok plan ∧
                    degraded_plan_of text plan
  end.
Proof.
  unfold salvage, first_success, decode_direct, decode_braces, decode_cleaned,
    _parse_json_response.
  destruct (json_loads text); [done|].
  destruct (re_search_braces text ≫= json_loads); [done|].
  destruct (json_loads (cleaned_text text)); [done|].
  eexists. split; [done|]. split_and!; [done..|].
  by intros d [= <-].
Qed.

Lemma _process_llm_response_salvage (llm_response : pystr) :
  match salvage (salvage_input llm_response) with
  | Some v => _process_llm_response llm_response = v
  | None => degraded_plan_of (salvage_input llm_response)
              (_process_llm_response llm_response)
  end.
Proof.
  pose proof (_parse_json_response_salvage (salvage_input llm_response)) as Hs.
  unfold _process_llm_response. cbv zeta.
  match goal with
  | |- context [_parse_json_response ?x] =>
      change x with (salvage_input llm_response)
  end.
  destruct (salvage (salvage_input llm_response)) as [v|].
  - by rewrite Hs.
  - destruct Hs as (plan & -> & Hplan). done.
Qed.

End WithDecoder.



End SalvageTheorems.

(** ** Execution of a plan and coercion of the answer *)

Module ExecuteTheorems.
Import Py LLMHandler Spec StringFacts SalvageFacts.

Lemma replace_char_delete (c : N) (s : pystr) : c ∉ replace [c] [] s.
Proof.
  unfold replace. induction s as [|x t IH]; cbn; [apply not_elem_of_nil|].
  destruct (N.eqb_spec c x) as [->|Hne]; cbn; [done|].
  apply not_elem_of_cons. by split.
Qed.

Section WithOracles.
Context `{json_lib : JsonDecoder} `{unicode_lib : UnicodeData} `{url_lib : UrlParser} `{interpreter : Interpreter}.

Lemma any_in_raw (s : pystr) :
  Forall (λ kw, contains kw s = false) code_keywords →
  any_in code_keywords (VStr s) = Ok false.
Proof.
  unfold code_keywords. intros Hkw. cbn [any_in str_in].
  repeat (apply Forall_cons in Hkw as [Hc Hkw]; rewrite bind_Ok, Hc; clear Hc).
  done.
Qed.

Lemma execute_raw (plan : list (pystr * pyval)) (s : pystr) (t : string)
    (context : pyval) :
  raw_answer plan s →
  assoc (lit "answer_type") plan = Some (VStr (lit t)) →
  execute_solution (VDict plan) context =
    if val_is (VStr (lit t)) "number" then
      let answer_str := strip (replace (lit ",") [] s) in
      if contains (lit ".") answer_str
      then Ok (from_option VFloat (VStr s) (py_float answer_str))
      else Ok (from_option VInt (VStr s) (py_int answer_str))
    else if val_is (VStr (lit t)) "boolean" then
      Ok (VBool (existsb (str_eqb (lower s)) [lit "true"; lit "yes"; lit "1"]))
    else if val_is (VStr (lit t)) "object" then
      Ok (from_option id (VStr s) (json_loads s))
    else Ok (VStr s).
Proof.
  intros [Hcode Hkw] Htype. unfold execute_solution, get.
  rewrite Htype, Hcode. unfold default. cbn [from_option]. unfold id.
  rewrite !bind_Ok, (any_in_raw _ Hkw), bind_Ok.
  destruct (val_is (VStr (lit t)) "number").
  { cbn zeta. destruct (contains _ _); [by destruct (py_float _)|by destruct (py_int _)]. }
  destruct (val_is (VStr (lit t)) "boolean"); [done|].
  destruct (val_is (VStr (lit t)) "object"); [|done].
  by destruct (json_loads s).
Qed.

(** C10: for [answer_type] "number" the separators are removed and the
    text is read as a float when it contains a point, as an integer
    otherwise: "1,234.5" gives 1234.5 and "1,234" gives 1234; for
    "boolean" the answer is true exactly when the lowered text is one of
    "true", "yes", "1": "Yes" gives true. *)
Theorem answer_coercion (context : pyval) :
  (∀ plan s, raw_answer plan s →
     assoc (lit "answer_type") plan = Some (VStr (lit "number")) →
     let answer_str := strip (replace (lit ",") [] s) in
     (44%N ∉ answer_str) ∧
     (∀ f, contains (lit ".") answer_str = true →
           py_float answer_str = Some f →
           execute_solution (VDict plan) context = Ok (VFloat f)) ∧
     (∀ z, contains (lit ".") answer_str = false →
           py_int answer_str = Some z →
           execute_solution (VDict plan) context = Ok (VInt z))) ∧
  (∀ plan s, raw_answer plan s →
     assoc (lit "answer_type") plan = Some (VStr (lit "boolean")) →
     ∃ b, execute_solution (VDict plan) context = Ok (VBool b) ∧
          (b = true ↔ lower s ∈ [lit "true"; lit "yes"; lit "1"])) ∧
  (∃ f, execute_solution
          (VDict [(lit "answer_type", VStr (lit "number"));
                  (lit "solution_code", VStr (lit "1,234.5"))]) context
        = Ok (VFloat f) ∧ float_is f false 12345 10) ∧
  execute_solution
    (VDict [(lit "answer_type", VStr (lit "number"));
            (lit "solution_code", VStr (lit "1,234"))]) context
  = Ok (VInt 1234) ∧
  execute_solution
    (VDict [(lit "answer_type", VStr (lit "boolean"));
            (lit "solution_code", VStr (lit "Yes"))]) context
  = Ok (VBool true).
Proof.
  split_and!.
  - intros plan s Hraw Htype answer_str. split_and!.
    + intros Hin. apply strip_by_chars in Hin.
      by apply (replace_char_delete 44) in Hin.
    + intros f Hpoint Hf. rewrite (execute_raw _ _ _ _ Hraw Htype).
      cbn zeta. fold answer_str. by rewrite Hpoint, Hf.
    + intros z Hpoint Hz. rewrite (execute_raw _ _ _ _ Hraw Htype).
      cbn zeta. fold answer_str. by rewrite Hpoint, Hz.
  - intros plan s Hraw Htype. eexists. split.
    + by rewrite (execute_raw _ _ _ _ Hraw Htype).
    + rewrite existsb_exists. split.
      * intros (w & Hw%list_elem_of_In & ->%str_eqb_eq). done.
      * intros Hin. exists (lower s). split; [by apply list_elem_of_In|].
        apply str_eqb_refl.
  - eexists. split; [by vm_compute|]. by vm_compute.
  - by vm_compute.
  - by vm_compute.
Qed.

Lemma execute_degraded_plan (text : pystr) (plan context : pyval) :
  degraded_plan_of text plan → execute_solution plan context = Ok (VStr []).
Proof.
  intros (Hsol & Htype & Hcode).
  destruct plan as [| | | | |?|d]; try discriminate Hsol.
  specialize (Hcode d eq_refl). unfold get in Htype.
  destruct (assoc (lit "answer_type") d) as [v|] eqn:E; [|discriminate Htype].
  cbn in Htype. injection Htype as ->.
  unfold execute_solution, get. rewrite E, Hcode. by vm_compute.
Qed.

(** C6: the answer is computed from [solution_code] and [answer_type]
    alone: two plans that agree on these two entries give the same result,
    whatever their other entries ([final_answer], [solution], ...) hold;
    and a degraded plan, which has a [solution] but no [solution_code],
    gives the empty string, not the salvaged text: so does the plan made
    from a response in which no decode succeeds. *)
Theorem execute_solution_reads_solution_code (context : pyval) :
  (∀ plan1 plan2,
     assoc (lit "solution_code") plan1 = assoc (lit "solution_code") plan2 →
     assoc (lit "answer_type") plan1 = assoc (lit "answer_type") plan2 →
     execute_solution (VDict plan1) context
     = execute_solution (VDict plan2) context) ∧
  (∀ text plan,
     degraded_plan_of text plan →
     execute_solution plan context = Ok (VStr [])) ∧
  (∀ llm_response,
     salvage (salvage_input llm_response) = None →
     get (_process_llm_response llm_response) (lit "solution") VNone
     = Ok (VStr (salvage_input llm_response)) ∧
     execute_solution (_process_llm_response llm_response) context
     = Ok (VStr [])).
Proof.
  split_and!.
  - intros plan1 plan2 Hcode Htype. unfold execute_solution, get.
    by rewrite Hcode, Htype.
  - intros text plan. apply execute_degraded_plan.
  - intros llm_response Hnone.
    pose proof (SalvageTheorems._process_llm_response_salvage llm_response)
      as Hplan.
    rewrite Hnone in Hplan. split; [apply Hplan|].
    by eapply execute_degraded_plan.
Qed.
End WithOracles.

(** A witness for [answer_coercion]: the plan of the claim's first example. *)
Lemma answer_coercion_witness :
  execute_solution (json_lib := Scenario.rejecting_decoder)
    (url_lib := Scenario.no_urlparse) (interpreter := Scenario.failing_interpreter)
    (VDict [(lit "answer_type", VStr (lit "number"));
            (lit "solution_code", VStr (lit "1,234.5"))]) VNone
  = Ok (VFloat (PyFloat false 12345 (-1))).
Proof.
  pose proof (answer_coercion (json_lib := Scenario.rejecting_decoder)
    (url_lib := Scenario.no_urlparse) (interpreter := Scenario.failing_interpreter) VNone)
    as (Hnum & _).
  destruct (Hnum [(lit "answer_type", VStr (lit "number"));
                  (lit "solution_code", VStr (lit "1,234.5"))]
              (lit "1,234.5")) as (_ & Hfloat & _).
  - split; [reflexivity|]. unfold code_keywords.
    repeat constructor.
  - reflexivity.
  - apply Hfloat; reflexivity.
Defined.

(** A witness for [execute_solution_reads_solution_code]: two plans that
    differ in their [solution] and [final_answer] only, and the degraded
    plan of the response "hello". *)
Lemma execute_solution_reads_solution_code_witness :
  execute_solution (json_lib := Scenario.rejecting_decoder)
    (url_lib := Scenario.no_urlparse) (interpreter := Scenario.failing_interpreter)
    (VDict [(lit "answer_type", VStr (lit "string"));
            (lit "solution", VStr (lit "hello"))]) VNone
  = execute_solution (json_lib := Scenario.rejecting_decoder)
      (url_lib := Scenario.no_urlparse) (interpreter := Scenario.failing_interpreter)
      (VDict [(lit "answer_type", VStr (lit "string"));
              (lit "solution", VStr (lit "42"));
              (lit "final_answer", VStr (lit "42"))]) VNone
  ∧ execute_solution (json_lib := Scenario.rejecting_decoder)
      (url_lib := Scenario.no_urlparse) (interpreter := Scenario.failing_interpreter)
      (_process_llm_response (json_lib := Scenario.rejecting_decoder)
         (unicode_lib := Scenario.ascii_printable) (lit "hello")) VNone
    = Ok (VStr []).
Proof.
  pose proof (execute_solution_reads_solution_code
    (json_lib := Scenario.rejecting_decoder)
    (unicode_lib := Scenario.ascii_printable)
    (url_lib := Scenario.no_urlparse)
    (interpreter := Scenario.failing_interpreter) VNone)
    as (Hagree & _ & Hresponse).
  split.
  - apply Hagree; reflexivity.
  - apply Hresponse. reflexivity.
Defined.

End ExecuteTheorems.

(** ** Link extraction *)

Module ExtractFacts.
Import Py LLMHandler QuizSolver Spec StringFacts.

Lemma in_list_elem_of (x : pystr) (l : list pystr) : in_list x l = true ↔ x ∈ l.
Proof.
  unfold in_list. rewrite existsb_exists. split.
  - intros (y & Hy%list_elem_of_In & ->%str_eqb_eq). done.
  - intros Hx. exists x. split; [by apply list_elem_of_In|apply str_eqb_refl].
Qed.

Lemma in_list_not_elem_of (x : pystr) (l : list pystr) :
  in_list x l = false ↔ x ∉ l.
Proof. rewrite <- in_list_elem_of. by destruct (in_list x l). Qed.

Lemma filter_ne_idemp (x : pystr) (l : list pystr) :
  filter (λ y, y ≠ x) (filter (λ y, y ≠ x) l) = filter (λ y, y ≠ x) l.
Proof. by apply list_filter_filter_l. Qed.

Lemma filter_ne_comm (x y : pystr) (l : list pystr) :
  filter (λ z, z ≠ x) (filter (λ z, z ≠ y) l)
  = filter (λ z, z ≠ y) (filter (λ z, z ≠ x) l).
Proof. rewrite !list_filter_filter. apply list_filter_iff. intros z. tauto. Qed.

(** Deleting an element commutes with keeping first occurrences. *)
Lemma first_seen_filter (x : pystr) (l : list pystr) :
  filter (λ y, y ≠ x) (first_seen l) = first_seen (filter (λ y, y ≠ x) l).
Proof.
  induction l as [|y r IH]; [done|]. cbn [first_seen].
  destruct (decide (y = x)) as [->|Hne].
  - rewrite !filter_cons_False by naive_solver.
    by rewrite filter_ne_idemp.
  - rewrite !filter_cons_True by done. cbn [first_seen].
    by rewrite filter_ne_comm, IH.
Qed.

Lemma first_seen_app (l1 l2 : list pystr) :
  first_seen (l1 ++ l2) = first_seen (first_seen l1 ++ l2).
Proof.
  induction l1 as [|x l1 IH]; [done|]. cbn [first_seen app]. f_equal.
  rewrite IH, (first_seen_filter x (first_seen l1 ++ l2)).
  rewrite (first_seen_filter x (filter _ (first_seen l1) ++ l2)).
  by rewrite !filter_app, filter_ne_idemp.
Qed.

Lemma elem_of_first_seen (x : pystr) (l : list pystr) : x ∈ first_seen l ↔ x ∈ l.
Proof.
  induction l as [|y r IH]; [done|]. cbn [first_seen].
  rewrite !elem_of_cons, list_elem_of_filter, IH.
  destruct (decide (x = y)); naive_solver.
Qed.

Lemma NoDup_first_seen (l : list pystr) : NoDup (first_seen l).
Proof.
  induction l as [|y r IH]; [constructor|]. cbn [first_seen].
  apply NoDup_cons. split; [|by apply NoDup_filter].
  rewrite list_elem_of_filter. naive_solver.
Qed.

Lemma filter_ne_absent (x : pystr) (l : list pystr) :
  x ∉ l → filter (λ y, y ≠ x) l = l.
Proof.
  induction l as [|y l IH]; [done|].
  intros [Hxy Hx]%not_elem_of_cons.
  rewrite filter_cons_True by done. f_equal. by apply IH.
Qed.

Lemma first_seen_NoDup (l : list pystr) : NoDup l → first_seen l = l.
Proof.
  induction 1 as [|x l Hx Hl IH]; [done|]. cbn [first_seen].
  by rewrite IH, filter_ne_absent.
Qed.

(** Appending an element that is already there changes nothing. *)
Lemma first_seen_snoc_old (l : list pystr) (x : pystr) :
  x ∈ l → first_seen (l ++ [x]) = first_seen l.
Proof.
  induction l as [|y l IH]; [by intros ?%elem_of_nil|].
  intros Hx. cbn [first_seen app]. f_equal.
  destruct (decide (x = y)) as [->|Hne].
  - rewrite !first_seen_filter, filter_app.
    by rewrite filter_cons_False, filter_nil, app_nil_r by naive_solver.
  - apply elem_of_cons in Hx as [?|Hx]; [done|]. by rewrite IH.
Qed.

(** [append_new] and a plain [append] keep the same first occurrences. *)
Lemma first_seen_append_new (l : list pystr) (x : pystr) :
  first_seen (append_new l x) = first_seen (l ++ [x]).
Proof.
  unfold append_new. destruct (in_list x l) eqn:E; [|done].
  apply in_list_elem_of in E. by rewrite first_seen_snoc_old.
Qed.

(** Two lists with the same first occurrences keep them when extended. *)
Lemma first_seen_app_congr (l1 l2 r : list pystr) :
  first_seen l1 = first_seen l2 → first_seen (l1 ++ r) = first_seen (l2 ++ r).
Proof. intros E. by rewrite (first_seen_app l1), E, <- first_seen_app. Qed.

(** A loop whose every turn amounts to appending the links of one element
    amounts to appending all their links. *)
Lemma first_seen_fold {A : Type} (step : list pystr → A → list pystr)
    (links : A → list pystr) (items : list A) (acc : list pystr) :
  (∀ acc a, first_seen (step acc a) = first_seen (acc ++ links a)) →
  first_seen (fold_left step items acc) = first_seen (acc ++ (items ≫= links)).
Proof.
  intros Hstep. revert acc. induction items as [|a items IH]; intros acc; cbn.
  - by rewrite app_nil_r.
  - rewrite IH. rewrite (first_seen_app_congr _ (acc ++ links a)) by apply Hstep.
    by rewrite <- app_assoc.
Qed.

(** "Remove duplicates while preserving order" keeps first occurrences. *)
Lemma unique_file_urls_first_seen (l : list pystr) :
  unique_file_urls l = first_seen l.
Proof.
  unfold unique_file_urls.
  assert (∀ acc, NoDup acc →
            NoDup (fold_left append_new l acc) ∧
            first_seen (fold_left append_new l acc) = first_seen (acc ++ l))
    as Hgen.
  { induction l as [|x l IH]; intros acc Hacc; cbn.
    - by rewrite app_nil_r.
    - destruct (IH (append_new acc x)) as [Hnd Hfs].
      + unfold append_new. destruct (in_list x acc) eqn:E; [done|].
        apply in_list_not_elem_of in E. apply NoDup_app. split_and!; [done| |].
        * intros y Hy ->%list_elem_of_singleton. done.
        * apply NoDup_singleton.
      + split; [done|]. rewrite Hfs.
        rewrite (first_seen_app_congr _ (acc ++ [x])) by apply first_seen_append_new.
        by rewrite <- app_assoc. }
  destruct (Hgen [] NoDup_nil_2) as [Hnd Hfs].
  by rewrite <- (first_seen_NoDup _ Hnd).
Qed.

Lemma omap_bind {A : Type} (f : A → option pystr) (l : list A) :
  omap f l = l ≫= (λ a, option_list (f a)).
Proof.
  induction l as [|a l IH]; [done|]. cbn. rewrite <- IH. by destruct (f a).
Qed.

Lemma filter_bind {A : Type} (P : pystr → Prop) `{!∀ x, Decision (P x)}
    (g : A → list pystr) (l : list A) :
  filter P (l ≫= g) = l ≫= (λ a, filter P (g a)).
Proof.
  induction l as [|a l IH]; [done|]. cbn. by rewrite filter_app, IH.
Qed.

Section WithExtractors.
Context `{extractors : Extractors}.

Lemma scan_source_tag_links (base_url : pystr) (acc : list pystr) (t : node) :
  first_seen (scan_source_tag base_url acc t)
  = first_seen (acc ++ option_list
                         (complete_url base_url <$> truthy_attr (lit "src") t)).
Proof.
  unfold scan_source_tag. destruct (truthy_attr _ t); cbn.
  - apply first_seen_append_new.
  - by rewrite app_nil_r.
Qed.

Lemma scan_audio_tag_links (base_url : pystr) (acc : list pystr) (t : node) :
  first_seen (scan_audio_tag base_url acc t)
  = first_seen (acc ++ audio_links base_url t).
Proof.
  unfold scan_audio_tag, audio_links.
  rewrite (first_seen_fold _ _ _ _ (scan_source_tag_links base_url)).
  rewrite omap_bind. destruct (truthy_attr _ t); cbn.
  - by rewrite <- app_assoc.
  - done.
Qed.

Lemma scan_link_links (base_url : pystr) (acc : list pystr) (t : node) :
  first_seen (scan_link base_url acc t)
  = first_seen (acc ++ filter (λ href, has_extension href)
                         (option_list (complete_url base_url
                                         <$> tag_get (lit "href") t))).
Proof.
  unfold scan_link.
  destruct (tag_get _ t) as [href|];
    cbn [fmap option_fmap option_map option_list option_rect].
  - rewrite filter_cons, filter_nil.
    destruct (has_extension (complete_url base_url href)) eqn:E.
    + rewrite decide_True by exact I. apply first_seen_append_new.
    + rewrite decide_False by (by intros []). by rewrite app_nil_r.
  - by rewrite filter_nil, app_nil_r.
Qed.

(** The three loops collect the discovered links, up to repetitions. *)
Lemma collect_file_urls_discovered (soup : list node) (base_url : pystr) :
  first_seen (collect_file_urls soup base_url)
  = first_seen (discovered base_url soup).
Proof.
  unfold collect_file_urls, discovered.
  rewrite (first_seen_fold _ _ _ _ (scan_source_tag_links base_url)).
  rewrite <- omap_bind. fold (video_links base_url soup).
  rewrite (first_seen_app_congr _
             (fold_left (scan_audio_tag base_url) (find_all (lit "audio") soup) []
              ++ anchor_links base_url soup)).
  - rewrite <- app_assoc.
    apply (first_seen_app_congr _ ([] ++ _)).
    apply (first_seen_fold _ _ _ _ (scan_audio_tag_links base_url)).
  - rewrite (first_seen_fold _ _ _ _ (scan_link_links base_url)).
    unfold anchor_links. by rewrite omap_bind, filter_bind.
Qed.

Lemma file_urls_first_seen (html_content base_url : pystr) :
  file_urls (_parse_question html_content base_url)
  = first_seen (discovered base_url (decompose_all (BeautifulSoup html_content))).
Proof.
  cbn [_parse_question file_urls].
  by rewrite unique_file_urls_first_seen, collect_file_urls_discovered.
Qed.
End WithExtractors.

End ExtractFacts.

Module ExtractTheorems.
Import Py LLMHandler QuizSolver Spec StringFacts ExtractFacts.

(** A filtered list splits where the unfiltered one does. *)
Lemma filter_app_cons_inv (P : pystr → Prop) `{!∀ x, Decision (P x)}
    (l a b : list pystr) (u : pystr) :
  filter P l = a ++ u :: b →
  ∃ a' b', l = a' ++ u :: b' ∧ filter P a' = a ∧ filter P b' = b.
Proof.
  revert a. induction l as [|y l IH]; intros a.
  - rewrite filter_nil. by destruct a.
  - rewrite filter_cons. destruct (decide (P y)) as [Hy|Hy].
    + destruct a as [|a0 a]; cbn.
      * intros [= -> <-]. exists [], l. by rewrite filter_nil.
      * intros [= -> (a' & b' & -> & <- & <-)%IH].
        exists (a0 :: a'), b'. by rewrite filter_cons_True.
    + intros (a' & b' & -> & <- & <-)%IH.
      exists (y :: a'), b'. by rewrite filter_cons_False.
Qed.

(** The order of [first_seen l] is the order of first appearance in [l]. *)
Lemma first_seen_order (l r1 r2 r3 : list pystr) (u v : pystr) :
  first_seen l = r1 ++ u :: r2 ++ v :: r3 → seen_before l u v.
Proof.
  revert r1 r2 r3. induction l as [|x l IH]; intros r1 r2 r3; cbn [first_seen].
  - by destruct r1.
  - destruct r1 as [|x' r1]; cbn.
    + intros [= -> _]. exists [], l. split; [done|apply not_elem_of_nil].
    + intros [= <- Hf].
      assert (v ≠ x) as Hvx.
      { assert (v ∈ filter (λ y, y ≠ x) (first_seen l)) as Hv.
        { rewrite Hf. apply elem_of_app. right. right.
          apply elem_of_app. right. by left. }
        by apply list_elem_of_filter in Hv as [? _]. }
      apply filter_app_cons_inv in Hf as (a' & b' & Hl & _ & Hb).
      assert (v ∈ b') as (b1 & b2 & ->)%list_elem_of_split.
      { assert (v ∈ filter (λ y, y ≠ x) b') as Hv.
        { rewrite Hb. apply elem_of_app. right. by left. }
        by apply list_elem_of_filter in Hv as [_ ?]. }
      destruct (IH _ _ _ Hl) as (l1 & l2 & -> & Hv).
      exists (x :: l1), l2. split; [done|].
      apply not_elem_of_cons. by split.
Qed.

Lemma complete_url_cases `{extractors : Extractors} (base_url src : pystr) :
  complete_url base_url src
  = if is_absolute src then src else urljoin base_url src.
Proof. unfold complete_url, is_absolute. by destruct (_ || _). Qed.

Lemma truthy_attr_get (key : pystr) (t : node) (src : pystr) :
  truthy_attr key t = Some src → tag_get key t = Some src.
Proof.
  unfold truthy_attr. destruct (tag_get key t) as [[|c s]|]; [done| |done].
  by intros [= <-].
Qed.

Section WithExtractors.
Context `{extractors : Extractors}.

Lemma discovered_from_attribute (base_url : pystr) (soup : list node) (u : pystr) :
  u ∈ discovered base_url soup →
  ∃ src, link_attribute soup src ∧ u = complete_url base_url src.
Proof.
  unfold discovered, link_attribute. rewrite !elem_of_app.
  intros [Ha|[Hl|Hv]].
  - apply list_elem_of_bind in Ha as (a & Hu & Ha).
    unfold audio_links in Hu. apply elem_of_app in Hu as [Hu|Hu].
    + destruct (truthy_attr (lit "src") a) as [src|] eqn:E;
        cbn in Hu; [|by apply elem_of_nil in Hu].
      apply list_elem_of_singleton in Hu as ->.
      exists src. split; [|done]. left. exists a. split; [done|].
      left. by apply truthy_attr_get.
    + apply list_elem_of_omap in Hu as (s & Hs & Hu).
      destruct (truthy_attr (lit "src") s) as [src|] eqn:E; [|done].
      injection Hu as <-. exists src. split; [|done].
      left. exists a. split; [done|]. right. exists s.
      split; [done|]. by apply truthy_attr_get.
  - unfold anchor_links in Hl. apply list_elem_of_filter in Hl as [_ Hl].
    apply list_elem_of_omap in Hl as (a & Ha & Hu).
    destruct (tag_get (lit "href") a) as [src|] eqn:E; [|done].
    injection Hu as <-. exists src. split; [|done]. right. left. by exists a.
  - unfold video_links in Hv.
    apply list_elem_of_omap in Hv as (a & Ha & Hu).
    destruct (truthy_attr (lit "src") a) as [src|] eqn:E; [|done].
    injection Hu as <-. exists src. split; [|done]. right. right.
    exists a. split; [done|]. by apply truthy_attr_get.
Qed.

Lemma has_extension_contains (href : pystr) :
  has_extension href = true ↔
  ∃ ext, ext ∈ all_extensions ∧ contains ext (lower href) = true.
Proof.
  unfold has_extension. rewrite existsb_exists.
  split; intros (ext & Hext & Hc); exists ext; split; try done;
    by apply list_elem_of_In.
Qed.

(** C9: the list of resource URLs of a question record has no duplicate,
    lists the discovered links in the order of their first appearance,
    and every entry is a link attribute of the page completed against the
    base URL: kept when it starts with [http://] or [https://], resolved
    with [urljoin base_url] otherwise. *)
Theorem resource_urls_unique_ordered_resolved (html_content base_url : pystr) :
  let soup := decompose_all (BeautifulSoup html_content) in
  let urls := file_urls (_parse_question html_content base_url) in
  NoDup urls ∧
  urls = first_seen (discovered base_url soup) ∧
  (∀ u, u ∈ urls ↔ u ∈ discovered base_url soup) ∧
  (∀ r1 u r2 v r3, urls = r1 ++ u :: r2 ++ v :: r3 →
                   seen_before (discovered base_url soup) u v) ∧
  (∀ u, u ∈ urls →
        ∃ src, link_attribute soup src ∧
               u = (if is_absolute src then src else urljoin base_url src)).
Proof.
  intros soup urls. unfold urls, soup. rewrite file_urls_first_seen.
  split_and!.
  - apply NoDup_first_seen.
  - done.
  - intros u. apply elem_of_first_seen.
  - intros r1 u r2 v r3. apply first_seen_order.
  - intros u Hu. apply (proj1 (elem_of_first_seen _ _)) in Hu.
    apply discovered_from_attribute in Hu as (src & Hsrc & ->).
    exists src. split; [done|]. apply complete_url_cases.
Qed.

(** C8, as the code has it: the links come from the three sources and no
    other, and an anchor is collected exactly when its completed target,
    in lower case, contains one of the recognized extensions. *)
Theorem resource_links_three_sources (html_content base_url : pystr) :
  let soup := decompose_all (BeautifulSoup html_content) in
  let urls := file_urls (_parse_question html_content base_url) in
  (∀ u, u ∈ urls ↔
        (∃ audio_tag, audio_tag ∈ find_all (lit "audio") soup ∧
                      u ∈ audio_links base_url audio_tag) ∨
        u ∈ anchor_links base_url soup ∨
        u ∈ video_links base_url soup) ∧
  (∀ u, u ∈ anchor_links base_url soup ↔
        (∃ link href, link ∈ find_all (lit "a") soup ∧
                      tag_get (lit "href") link = Some href ∧
                      u = complete_url base_url href) ∧
        ∃ ext, ext ∈ all_extensions ∧ contains ext (lower u) = true).
Proof.
  intros soup urls. unfold urls, soup. rewrite file_urls_first_seen. split.
  - intros u. rewrite elem_of_first_seen. unfold discovered.
    rewrite !elem_of_app, list_elem_of_bind. naive_solver.
  - intros u. unfold anchor_links.
    rewrite list_elem_of_filter, list_elem_of_omap, <- has_extension_contains.
    rewrite Is_true_true. split.
    + intros [Hext (link & Hlink & Hu)]. split; [|done].
      destruct (tag_get (lit "href") link) as [href|] eqn:E; [|done].
      injection Hu as <-. by exists link, href.
    + intros [(link & href & Hlink & Hhref & ->) Hext]. split; [done|].
      exists link. by rewrite Hhref.
Qed.
End WithExtractors.

(** The claim's reading of C8 fails: an anchor whose target carries a query
    string after the extension is collected, though the target does not end
    with any recognized extension. *)
Lemma anchor_collected_without_extension_suffix :
  file_urls (_parse_question (extractors := Scenario.one_anchor_page)
               (lit "<a href=https://x.test/data.csv?download=1>data</a>")
               (lit "https://x.test/q"))
  = [Scenario.anchor_with_query] ∧
  ends_with_extension Scenario.anchor_with_query = false.
Proof. split; by vm_compute. Qed.

(** A witness for [resource_links_three_sources]. *)
Lemma resource_links_three_sources_witness :
  lit "https://x.test/data.csv"
  ∈ anchor_links (extractors := Scenario.media_page) (lit "https://x.test/q")
      (decompose_all
         (BeautifulSoup (Extractors := Scenario.media_page) [])).
Proof.
  pose proof (resource_links_three_sources (extractors := Scenario.media_page)
                [] (lit "https://x.test/q")) as [_ Hanchor].
  cbv zeta in Hanchor. apply Hanchor. split.
  - exists (Tag (lit "a") [(lit "href", lit "data.csv")] []), (lit "data.csv").
    split_and!; [|reflexivity..].
    vm_compute. constructor.
  - exists (lit ".csv"). split; [|reflexivity].
    apply (bool_decide_unpack _). vm_compute. exact I.
Defined.

(** A witness for [resource_urls_unique_ordered_resolved]: on the media
    page the relative links are resolved and listed once, the audio clip
    before the data file. *)
Lemma resource_urls_unique_ordered_resolved_witness :
  file_urls (_parse_question (extractors := Scenario.media_page) [] (lit "https://x.test/q"))
  = [lit "https://x.test/clip.mp3"; lit "https://x.test/data.csv"] ∧
  seen_before
    (discovered (extractors := Scenario.media_page) (lit "https://x.test/q")
       (decompose_all
          (BeautifulSoup (Extractors := Scenario.media_page) [])))
    (lit "https://x.test/clip.mp3") (lit "https://x.test/data.csv").
Proof.
  pose proof (resource_urls_unique_ordered_resolved (extractors := Scenario.media_page)
                [] (lit "https://x.test/q")) as (_ & _ & _ & Horder & _).
  cbv zeta in Horder. split; [by vm_compute|].
  apply (Horder [] _ [] _ []). by vm_compute.
Defined.

End ExtractTheorems.

(** ** Resource download *)

Module DownloadFacts.
Import Py LLMHandler QuizSolver Spec StringFacts.

Section WithDecoders.
Context `{decoders : Decoders}.
Variable http_get : nat → pystr → get_outcome.

(** A failing attempt hands over to the next one, one request later. *)
Lemma attempt_failing (url : pystr) (attempt : nat) (rest : list nat)
    (last_error : option pystr) (st : net) :
  failing (http_get (requests st) url) = true →
  ∃ st1, requests st1 = S (requests st) ∧
    attempt_loop http_get url (attempt :: rest) last_error st
    = attempt_loop http_get url rest
        (Some (error_of (http_get (requests st) url))) st1.
Proof.
  cbn [attempt_loop]. unfold failing, error_of.
  destruct (http_get (requests st) url) as [r|e].
  - destruct (negb (status_code r =? 200)%Z) eqn:Es; cbn [orb].
    + intros _. eexists; split; [|reflexivity]; done.
    + intros ->. eexists; split; [|reflexivity]; done.
  - intros _. destruct (exn_cls e);
      (eexists; split; [|reflexivity]);
      unfold sleep_if; by destruct (Nat.ltb attempt max_retries).
Qed.

(** A successful attempt stores the payload and ends the loop. *)
Lemma attempt_succeeding (url : pystr) (attempt : nat) (rest : list nat)
    (last_error : option pystr) (st : net) (r : response) :
  http_get (requests st) url = Responded r →
  failing (Responded r) = false →
  ∃ st1, requests st1 = S (requests st) ∧
    attempt_loop http_get url (attempt :: rest) last_error st
    = (Some (store url r), last_error, st1).
Proof.
  cbn [attempt_loop]. intros -> [Hs Hc]%orb_false_elim.
  rewrite Hs, Hc. eexists; split; [|reflexivity]; done.
Qed.

(** All attempts fail: nothing is stored, the last error is kept. *)
Lemma attempt_loop_exhausted (url : pystr) (attempts : list nat) (m : nat)
    (last_error : option pystr) (st : net) :
  length attempts = S m →
  (∀ i, i < S m → failing (http_get (requests st + i) url) = true) →
  ∃ st', requests st' = requests st + S m ∧
    attempt_loop http_get url attempts last_error st
    = (None, Some (error_of (http_get (requests st + m) url)), st').
Proof.
  revert m last_error st.
  induction attempts as [|a rest IH]; intros m last_error st Hlen Hfail;
    [done|].
  destruct (attempt_failing url a rest last_error st) as (st1 & Hst1 & ->).
  { rewrite <- (Nat.add_0_r (requests st)). apply Hfail. lia. }
  destruct rest as [|b rest].
  - cbn in Hlen. assert (m = 0) as -> by lia. cbn [attempt_loop].
    exists st1. split; [lia|]. by rewrite Nat.add_0_r.
  - destruct m as [|m]; [done|].
    destruct (IH m (Some (error_of (http_get (requests st) url))) st1)
      as (st' & Hst' & ->).
    + cbn in Hlen |- *. lia.
    + intros i Hi. rewrite Hst1.
      replace (S (requests st) + i) with (requests st + S i) by lia.
      apply Hfail. lia.
    + exists st'. split; [lia|]. rewrite Hst1.
      by replace (S (requests st) + m) with (requests st + S m) by lia.
Qed.

(** The first attempt that succeeds is the one stored. *)
Lemma attempt_loop_first_success (url : pystr) (attempts : list nat) (k : nat)
    (last_error : option pystr) (st : net) (r : response) :
  k < length attempts →
  (∀ i, i < k → failing (http_get (requests st + i) url) = true) →
  http_get (requests st + k) url = Responded r →
  failing (Responded r) = false →
  ∃ err st', requests st' = requests st + S k ∧
    attempt_loop http_get url attempts last_error st
    = (Some (store url r), err, st').
Proof.
  revert attempts last_error st.
  induction k as [|k IH]; intros attempts last_error st Hlen Hfail Hget Hok.
  - destruct attempts as [|a rest]; [cbn in Hlen; lia|].
    rewrite Nat.add_0_r in Hget.
    destruct (attempt_succeeding url a rest last_error st r Hget Hok)
      as (st1 & Hst1 & ->).
    exists last_error, st1. split; [lia|done].
  - destruct attempts as [|a rest]; [cbn in Hlen; lia|].
    destruct (attempt_failing url a rest last_error st) as (st1 & Hst1 & ->).
    { rewrite <- (Nat.add_0_r (requests st)). apply Hfail. lia. }
    destruct (IH rest (Some (error_of (http_get (requests st) url))) st1)
      as (err & st' & Hst' & ->); try done.
    + cbn in Hlen. lia.
    + intros i Hi. rewrite Hst1.
      replace (S (requests st) + i) with (requests st + S i) by lia.
      apply Hfail. lia.
    + rewrite Hst1. by replace (S (requests st) + k) with (requests st + S k) by lia.
    + exists err, st'. split; [lia|done].
Qed.

(** The loop makes at least one request when there is an attempt to
    make, and no more requests than attempts. *)
Lemma attempt_loop_requests (url : pystr) (attempts : list nat)
    (last_error : option pystr) (st : net) :
  let st' := (attempt_loop http_get url attempts last_error st).2 in
  requests st + min 1 (length attempts) ≤ requests st'
  ∧ requests st' ≤ requests st + length attempts.
Proof.
  revert last_error st.
  induction attempts as [|a rest IH]; intros last_error st; [cbn; lia|].
  destruct (failing (http_get (requests st) url)) eqn:Ef.
  - destruct (attempt_failing url a rest last_error st Ef) as (st1 & Hst1 & ->).
    specialize (IH (Some (error_of (http_get (requests st) url))) st1).
    cbn zeta in IH |- *. cbn [length]. lia.
  - destruct (http_get (requests st) url) as [r|e] eqn:Eg; [|done].
    destruct (attempt_succeeding url a rest last_error st r Eg Ef)
      as (st1 & Hst1 & ->).
    cbn. lia.
Qed.

(** The solver has no attribute [parse_pdf]. *)
Lemma getattr_parse_pdf :
  getattr_self (lit "parse_pdf")
  = Raise (Exn AttributeError
             (lit "'QuizSolver' object has no attribute 'parse_pdf'")).
Proof. reflexivity. Qed.

(** Whatever a successful attempt stores, it is not a [Failed] payload. *)
Lemma store_not_failed (url : pystr) (r : response) :
  is_failed (store url r) = false.
Proof.
  unfold store. rewrite getattr_parse_pdf, bind_Raise.
  repeat match goal with
         | |- context [if ?b then _ else _] => destruct b
         | |- context [match ?x with _ => _ end] => destruct x
         end; try done.
Qed.
(** And it is never a document payload: the branch for PDF files stops at
    the attribute lookup. *)
Lemma store_never_document (url : pystr) (r : response) :
  is_document (store url r) = false.
Proof.
  unfold store. rewrite getattr_parse_pdf, bind_Raise.
  repeat match goal with
         | |- context [if ?b then _ else _] => destruct b
         | |- context [match ?x with _ => _ end] => destruct x
         end; try done.
Qed.
End WithDecoders.

End DownloadFacts.

Module DownloadTheorems.
Import Py LLMHandler QuizSolver Spec StringFacts DownloadFacts.

Section WithDecoders.
Context `{decoders : Decoders}.
Variable http_get : nat → pystr → get_outcome.

Lemma download_one_stores (files : gmap pystr payload) (st : net) (url : pystr) :
  is_Some ((download_one http_get (files, st) url).1 !! url).
Proof.
  unfold download_one.
  destruct (attempt_loop _ _ _ _ _) as [[[p|] err] st'];
    cbn [fst]; rewrite lookup_insert_eq; by eexists.
Qed.

Lemma download_one_keeps (files : gmap pystr payload) (st : net)
    (url u : pystr) :
  is_Some (files !! u) →
  is_Some ((download_one http_get (files, st) url).1 !! u).
Proof.
  intros Hu. destruct (decide (url = u)) as [->|Hne];
    [apply download_one_stores|].
  unfold download_one.
  destruct (attempt_loop _ _ _ _ _) as [[[p|] err] st'];
    cbn [fst]; by rewrite lookup_insert_ne.
Qed.

(** No URL of the batch is left out, whatever happened to the others. *)
Lemma download_files_from_all (st : net) (urls : list pystr) (u : pystr) :
  u ∈ urls → is_Some ((download_files_from http_get st urls).1 !! u).
Proof.
  unfold download_files_from.
  assert (∀ acc, u ∈ urls ∨ is_Some (acc.1 !! u) →
                 is_Some ((fold_left (download_one http_get) urls acc).1 !! u))
    as Hgen.
  { induction urls as [|x urls IH]; intros [files st0] Hu; cbn [fold_left].
    - destruct Hu as [Hu|Hu]; [by apply elem_of_nil in Hu|done].
    - destruct (download_one http_get (files, st0) x) as [files1 st1] eqn:E.
      apply IH. destruct Hu as [[->|Hu]%elem_of_cons|Hu].
      + right. pose proof (download_one_stores files st0 x) as Hs.
        by rewrite E in Hs.
      + by left.
      + right. pose proof (download_one_keeps files st0 x u Hu) as Hs.
        by rewrite E in Hs. }
  intros Hu. apply Hgen. by left.
Qed.

(** A resource classified as a PDF is stored with the error of the
    missing attribute. *)
Lemma store_pdf (url : pystr) (r : response) :
  existsb (λ ext, contains ext (lower url)) audio_extensions = false →
  contains (lit "csv") (content_type r) || endswith (lit ".csv") (lower url)
    = false →
  contains (lit "pdf") (content_type r) || endswith (lit ".pdf") (lower url)
    = true →
  store url r
  = PPdfError (lit "'QuizSolver' object has no attribute 'parse_pdf'").
Proof. unfold store. by intros -> -> ->. Qed.

(** The policy for one URL, from any state of the batch. *)
Lemma download_one_policy (files : gmap pystr payload) (st : net)
    (url : pystr) :
  let result := download_one http_get (files, st) url in
  let n := requests st in
  (n < requests result.2 ∧ requests result.2 ≤ n + 3) ∧
  (∀ k r, k < 3 →
     (∀ i, i < k → failing (http_get (n + i) url) = true) →
     http_get (n + k) url = Responded r →
     failing (Responded r) = false →
     result.1 !! url = Some (store url r) ∧
     requests result.2 = n + S k) ∧
  ((∀ i, i < 3 → failing (http_get (n + i) url) = true) →
     result.1 !! url
     = Some (PError (Some (error_of (http_get (n + 2) url))) 3) ∧
     requests result.2 = n + 3).
Proof.
  intros result n. subst n. split; [|split].
  - pose proof (attempt_loop_requests http_get url
                  (seq 0 (max_retries + 1)) None st) as Hreq.
    cbn zeta in Hreq. unfold result, download_one.
    destruct (attempt_loop _ _ _ _ _) as [[[p|] err] st'];
      cbn [fst snd length seq max_retries Nat.add] in *; lia.
  - intros k r Hk Hfail Hget Hok. unfold result, download_one.
    destruct (attempt_loop_first_success http_get url
                (seq 0 (max_retries + 1)) k None st r)
      as (err & st' & Hst' & ->); [by cbn|done..|].
    cbn [fst snd]. by rewrite lookup_insert_eq.
  - intros Hfail. unfold result, download_one.
    destruct (attempt_loop_exhausted http_get url
                (seq 0 (max_retries + 1)) 2 None st)
      as (st' & Hst' & ->); [done..|].
    cbn [fst snd]. by rewrite lookup_insert_eq.
Qed.

(** A download leaves the entries of the other URLs alone. *)
Lemma download_one_other (files : gmap pystr payload) (st : net)
    (url u : pystr) :
  u ≠ url → (download_one http_get (files, st) url).1 !! u = files !! u.
Proof.
  intros Hne. unfold download_one.
  destruct (attempt_loop _ _ _ _ _) as [[[p|] err] st'];
    cbn [fst]; by rewrite lookup_insert_ne.
Qed.

Lemma download_rest_other (acc : gmap pystr payload * net)
    (urls : list pystr) (u : pystr) :
  u ∉ urls → (fold_left (download_one http_get) urls acc).1 !! u = acc.1 !! u.
Proof.
  revert acc. induction urls as [|x urls IH]; intros [files st] Hu; [done|].
  apply not_elem_of_cons in Hu as [Hne Hu]. cbn [fold_left].
  rewrite IH by done.
  destruct (download_one http_get (files, st) x) as [files1 st1] eqn:E.
  pose proof (download_one_other files st x u Hne) as Ho.
  by rewrite E in Ho.
Qed.

(** The batch, cut at a URL. *)
Lemma download_files_from_snoc (st : net) (pre : list pystr) (url : pystr) :
  download_files_from http_get st (pre ++ [url])
  = download_one http_get (download_files_from http_get st pre) url.
Proof. unfold download_files_from. by rewrite fold_left_app. Qed.

Lemma download_files_from_cut (st : net) (pre post : list pystr)
    (url : pystr) :
  url ∉ post →
  (download_files_from http_get st (pre ++ url :: post)).1 !! url
  = (download_files_from http_get st (pre ++ [url])).1 !! url.
Proof.
  intros Hpost.
  replace (pre ++ url :: post) with ((pre ++ [url]) ++ post)
    by (by rewrite <- app_assoc).
  unfold download_files_from at 1. rewrite fold_left_app.
  by apply download_rest_other.
Qed.

(** Either one of the three attempts is the first that does not fail, or
    all three fail. *)
Lemma first_attempt_that_holds (n : nat) (url : pystr) :
  (∃ k r, k < 3
          ∧ (∀ i, i < k → failing (http_get (n + i) url) = true)
          ∧ http_get (n + k) url = Responded r
          ∧ failing (Responded r) = false)
  ∨ (∀ i, i < 3 → failing (http_get (n + i) url) = true).
Proof.
  assert (∀ j, failing (http_get (n + j) url) = false →
               ∃ r, http_get (n + j) url = Responded r
                    ∧ failing (Responded r) = false) as Hresp.
  { intros j Hj. destruct (http_get (n + j) url) as [r|e]; [|done].
    by exists r. }
  destruct (failing (http_get (n + 0) url)) eqn:F0.
  - destruct (failing (http_get (n + 1) url)) eqn:F1.
    + destruct (failing (http_get (n + 2) url)) eqn:F2.
      * right. intros i Hi. destruct i as [|[|[|i]]]; [done..|lia].
      * left. destruct (Hresp 2 F2) as (r & Hr & Hok). exists 2, r.
        split_and!; [lia| |done..].
        intros i Hi. destruct i as [|[|i]]; [done..|lia].
    + left. destruct (Hresp 1 F1) as (r & Hr & Hok). exists 1, r.
      split_and!; [lia| |done..].
      intros i Hi. destruct i as [|i]; [done|lia].
  - left. destruct (Hresp 0 F0) as (r & Hr & Hok). exists 0, r.
    split_and!; [lia| |done..]. intros i Hi. lia.
Qed.

(** C7: in a batch handed to [download_files], the URL reached after n
    requests gets between one and three requests, numbers n, n+1 and n+2;
    the first attempt that is not failing (no transport error, status 200,
    a body) is the one whose payload the returned dict holds for the URL,
    and that payload is no [Failed] payload, as for a URL answering 500,
    500, 200; when all three attempts fail the dict holds the [Failed]
    payload with three attempts and the error of the last one, and it
    holds a [Failed] payload in no other case; whatever happened to a URL,
    every URL of the batch has its entry.  With a URL listed twice the
    entry is that of its last occurrence. *)
Theorem download_retry_policy (pre post : list pystr) (url : pystr) :
  url ∉ post →
  let files := download_files http_get (pre ++ url :: post) in
  let n := requests (download_files_from http_get (Net 0 []) pre).2 in
  let n' :=
    requests (download_files_from http_get (Net 0 []) (pre ++ [url])).2 in
  (n < n' ∧ n' ≤ n + 3) ∧
  (∀ k r, k < 3 →
     (∀ i, i < k → failing (http_get (n + i) url) = true) →
     http_get (n + k) url = Responded r →
     failing (Responded r) = false →
     files !! url = Some (store url r) ∧
     is_failed (store url r) = false ∧
     n' = n + S k) ∧
  (∀ r1 r2 r3,
     http_get n url = Responded r1 → status_code r1 = 500%Z →
     http_get (n + 1) url = Responded r2 → status_code r2 = 500%Z →
     http_get (n + 2) url = Responded r3 → status_code r3 = 200%Z →
     content r3 ≠ [] →
     ∃ p, files !! url = Some p ∧ is_failed p = false) ∧
  ((∀ i, i < 3 → failing (http_get (n + i) url) = true) →
     files !! url
     = Some (PError (Some (error_of (http_get (n + 2) url))) 3) ∧
     n' = n + 3) ∧
  (∀ p, files !! url = Some p → is_failed p = true →
        ∀ i, i < 3 → failing (http_get (n + i) url) = true) ∧
  (∀ u, u ∈ pre ++ url :: post → is_Some (files !! u)).
Proof.
  intros Hpost files n n'.
  assert (files !! url
          = (download_one http_get
               (download_files_from http_get (Net 0 []) pre) url).1 !! url)
    as Hfiles.
  { unfold files, download_files.
    by rewrite download_files_from_cut, download_files_from_snoc. }
  assert (n' = requests (download_one http_get
                           (download_files_from http_get (Net 0 []) pre)
                           url).2) as Hn'.
  { unfold n'. by rewrite download_files_from_snoc. }
  destruct (download_files_from http_get (Net 0 []) pre) as [files0 st0]
    eqn:Epre.
  pose proof (download_one_policy files0 st0 url) as (Hreq & Hone & Hall).
  cbn zeta in Hreq, Hone, Hall. cbn [snd] in n. fold n in Hreq, Hone, Hall.
  rewrite <- Hn' in Hreq, Hone, Hall. rewrite <- Hfiles in Hone, Hall.
  assert (∀ k r, k < 3 →
     (∀ i, i < k → failing (http_get (n + i) url) = true) →
     http_get (n + k) url = Responded r →
     failing (Responded r) = false →
     files !! url = Some (store url r) ∧
     is_failed (store url r) = false ∧
     n' = n + S k) as Hfirst.
  { intros k r Hk Hfail Hget Hok.
    destruct (Hone k r Hk Hfail Hget Hok) as [Hentry Hcount].
    split_and!; [done|apply store_not_failed|done]. }
  split; [|split_and!].
  - exact Hreq.
  - exact Hfirst.
  - intros r1 r2 r3 H1 S1 H2 S2 H3 S3 Hbody.
    exists (store url r3).
    destruct (Hfirst 2 r3 ltac:(lia)) as (Hl & Hf & _); [|done| |done].
    + intros i Hi. destruct i as [|[|i]]; [| |lia].
      * rewrite Nat.add_0_r, H1. cbn. by rewrite S1.
      * rewrite H2. cbn. by rewrite S2.
    + cbn. rewrite S3. by destruct (content r3).
  - exact Hall.
  - intros p Hp Hfailed.
    destruct (first_attempt_that_holds n url)
      as [(k & r & Hk & Hfail & Hget & Hok)|Hfail]; [|done].
    destruct (Hfirst k r Hk Hfail Hget Hok) as (Hentry & Hnot & _).
    rewrite Hentry in Hp. injection Hp as <-. congruence.
  - intros u Hu. by apply download_files_from_all.
Qed.
End WithDecoders.

(** A witness for [download_retry_policy]: against the server that answers
    500, 500, 200 the body of the third answer is recorded. *)
Lemma download_retry_policy_witness :
  download_files (decoders := Scenario.one_page_decoders) Scenario.flaky_server
    [lit "https://x.test/notes.txt"]
  !! lit "https://x.test/notes.txt"
  = Some (PBinary (lit "hello") 5).
Proof.
  pose proof (download_retry_policy (decoders := Scenario.one_page_decoders)
                Scenario.flaky_server [] [] (lit "https://x.test/notes.txt")
                (not_elem_of_nil _)) as Hpolicy.
  cbv zeta in Hpolicy. destruct Hpolicy as (_ & Hfirst & _).
  destruct (Hfirst 2 {| status_code := 200; content_type := lit "text/plain";
                        content := lit "hello" |}) as (Hstored & _ & _).
  - lia.
  - intros i Hi. destruct i as [|[|i]]; [reflexivity..|lia].
  - reflexivity.
  - reflexivity.
  - etransitivity; [exact Hstored|reflexivity].
Defined.

(** C4 fails on the code: a PDF served with status 200 is recorded with an
    error payload, because [download_files] calls [self.parse_pdf] and the
    method is named [_parse_pdf]; the method itself would have returned the
    document payload.  No download is ever recorded as a document. *)
Theorem pdf_resource_stored_as_error :
  (∀ (decoders : Decoders) url r, is_document (store url r) = false) ∧
  download_files (decoders := Scenario.one_page_decoders)
    (λ _ _, Responded Scenario.pdf_response) [Scenario.pdf_url]
  !! Scenario.pdf_url
  = Some (PPdfError (lit "'QuizSolver' object has no attribute 'parse_pdf'"))
  ∧ _parse_pdf (decoders := Scenario.one_page_decoders)
      (content Scenario.pdf_response)
    = PPdf 1 [(1, lit "page one")].
Proof.
  split_and!; [|by vm_compute..].
  intros decoders url r. apply store_never_document.
Qed.

End DownloadTheorems.

(** ** Submission, the chain and the task status *)

Module ChainFacts.
Import Py LLMHandler QuizSolver Main Spec StringFacts.

(** The explicit URL of the question record and the fallbacks are never
    consulted. *)
Lemma submit_target_constant `{url_lib : UrlParser} (quiz_url : pystr)
    (submit_url : option pystr) :
  submit_target quiz_url submit_url = Ok hardcoded_submit_url.
Proof. reflexivity. Qed.

(** A match of the "POST to ..." pattern is replaced by the same endpoint. *)
Lemma infer_submit_url_matched `{extractors : Extractors} (text found : pystr) :
  search_submit_pattern text = Some found →
  infer_submit_url text = Some hardcoded_submit_url.
Proof. unfold infer_submit_url. by intros ->. Qed.

Section WithWorld.
Context `{json_lib : JsonDecoder} `{unicode_lib : UnicodeData} `{url_lib : UrlParser} `{interpreter : Interpreter}
        `{extractors : Extractors} `{decoders : Decoders} `{outside : Outside}.
Variable settings : Settings.

Lemma _submit_answer_target (n : nat) (email secret quiz_url : pystr)
    (submit_url : option pystr) (answer : pyval) :
  ∃ payload, p_url payload = quiz_url ∧
    _submit_answer n email secret quiz_url submit_url answer
    = http_post n hardcoded_submit_url payload.
Proof.
  unfold _submit_answer. rewrite submit_target_constant, bind_Ok.
  eexists. split; [|reflexivity]. done.
Qed.

(** A script that exits with a status other than 0 makes the execution
    raise. *)
Lemma _execute_python_solution_failure (code : pystr) (context : list (pystr * pyval))
    (returncode : Z) (stdout stderr : pystr) :
  assoc (lit "quiz_url") context = None →
  tempfile_write code = Ok () →
  subprocess_run code = Exited returncode stdout stderr →
  returncode ≠ 0%Z →
  _execute_python_solution (VStr code) (VDict context)
  = Raise (Exn RuntimeError
             (lit "Subprocess execution failed: "
              ++ match stderr with [] => stdout | _ => stderr end)).
Proof.
  intros Hctx Hwrite Hrun Hrc. unfold _execute_python_solution, get.
  rewrite Hctx. destruct (truthy (VDict context)); cbn; rewrite Hwrite; cbn;
    rewrite Hrun; by destruct (Z.eqb_spec returncode 0).
Qed.

Lemma counted_extend (from : nat) (run : chain_run) :
  counted settings (S from) run →
  (elapsed_us (S from) ≤ deadline_us settings)%Z →
  counted settings from run.
Proof.
  intros [Hexit Hstarted] Hfrom. split; [done|]. intros i Hi.
  destruct (decide (i = from)) as [->|Hne]; [done|]. apply Hstarted. lia.
Qed.

(** The loop keeps [question_count] equal to the number of questions
    handed to the pipeline, except when it leaves by the deadline: then
    the count includes a question that was not attempted.  Every question
    attempted was started within the deadline. *)
Lemma chain_loop_counted (fuel : nat) (email secret : pystr)
    (current_url : option pystr) (count : nat) (done_urls : list pystr)
    (lines : list log_line) (run : chain_run) :
  count = length done_urls →
  chain_loop settings fuel email secret current_url count done_urls lines
  = Some run →
  counted settings count run.
Proof.
  revert current_url count done_urls lines.
  induction fuel as [|fuel IH];
    intros current_url count done_urls lines Hc; [done|].
  cbn [chain_loop].
  destruct current_url as [[|c u]|];
    [intros [= <-]; split; cbn; [done|lia] | |
     intros [= <-]; split; cbn; [done|lia]].
  fold (deadline_us settings).
  destruct (Z.gtb_spec (elapsed_us (S count)) (deadline_us settings))
    as [Hlate|Hearly].
  { intros [= <-]. split; cbn; [lia|lia]. }
  assert (S count = length (done_urls ++ [c :: u])) as Hc'.
  { rewrite length_app. cbn. lia. }
  assert (∀ e lines', e ≠ BreakTimeout →
            counted settings count
              (ChainRun e (S count) (done_urls ++ [c :: u]) lines'))
    as Hstop.
  { intros e lines' He. split; cbn; [by destruct e|]. intros i Hi.
    by assert (i = count) as -> by lia. }
  destruct (_solve_single_question (S count) email secret (c :: u))
    as [result|e].
  - destruct (correct result).
    + destruct (falsy (url result)).
      * intros [= <-]. by apply Hstop.
      * intros Hrun. apply counted_extend; [|done]. by eapply IH.
    + destruct (negb (falsy (url result))).
      * intros Hrun. apply counted_extend; [|done]. by eapply IH.
      * intros [= <-]. by apply Hstop.
  - intros [= <-]. by apply Hstop.
Qed.

(** An error of the pipeline ends the loop at once. *)
Lemma chain_loop_error (fuel : nat) (email secret current_url : pystr)
    (count : nat) (done_urls : list pystr) (lines : list log_line) (e : exn) :
  current_url ≠ [] →
  (elapsed_us (S count) ≤ deadline_us settings)%Z →
  _solve_single_question (S count) email secret current_url = Raise e →
  ∃ lines',
    chain_loop settings (S fuel) email secret (Some current_url) count
      done_urls lines
    = Some (ChainRun (BreakError e) (S count) (done_urls ++ [current_url])
              (lines' ++ [LogError (exn_str e)])).
Proof.
  intros Hurl Hearly Hraise. cbn [chain_loop].
  destruct current_url as [|c u]; [done|].
  fold (deadline_us settings).
  destruct (Z.gtb_spec (elapsed_us (S count)) (deadline_us settings));
    [lia|].
  rewrite Hraise. by eexists.
Qed.

(** [solve_quiz_chain] returns normally whenever it returns. *)
Lemma solve_quiz_chain_returns (fuel : nat) (email secret initial_url : pystr)
    (outcome : result chain_run) :
  solve_quiz_chain settings fuel email secret initial_url = Some outcome →
  ∃ run, outcome = Ok run.
Proof.
  unfold solve_quiz_chain.
  destruct (chain_loop _ _ _ _ _ _ _ _) as [run|]; [|done].
  intros [= <-]. by eexists.
Qed.

(** The count of a run of [solve_quiz_chain]: one more than the questions
    attempted when the run was left by the deadline. *)
Lemma solve_quiz_chain_counted (fuel : nat) (email secret initial_url : pystr)
    (run : chain_run) :
  solve_quiz_chain settings fuel email secret initial_url = Some (Ok run) →
  counted settings 0 run.
Proof.
  unfold solve_quiz_chain.
  destruct (chain_loop _ _ _ _ _ _ _ _) as [run0|] eqn:E; [|done].
  intros [= <-]. by apply chain_loop_counted in E.
Qed.

(** So the task of a run that ends is marked completed, whatever
    happened in the chain, and no error is recorded. *)
Lemma solve_quiz_background_completed (fuel : nat)
    (email secret url task_id now : pystr)
    (active_tasks active_tasks' : tasks) (task : gmap pystr pyval) :
  active_tasks !! task_id = Some task →
  solve_quiz_background settings fuel email secret url task_id now active_tasks
  = Some active_tasks' →
  ∃ task', active_tasks' !! task_id = Some task' ∧
           task' !! lit "status" = Some (VStr (lit "completed")) ∧
           task' !! lit "error" = task !! lit "error".
Proof.
  intros Htask. unfold solve_quiz_background.
  destruct (solve_quiz_chain _ _ _ _ _) as [outcome|] eqn:E; [|done].
  apply solve_quiz_chain_returns in E as [run ->]. intros [= <-].
  unfold record_outcome, set_field. rewrite !lookup_alter_eq, Htask.
  eexists. split; [reflexivity|]. split.
  - rewrite lookup_insert_ne by (by vm_compute). by rewrite lookup_insert_eq.
  - by rewrite !lookup_insert_ne by (by vm_compute).
Qed.
End WithWorld.

End ChainFacts.

Module ChainTheorems.
Import Py LLMHandler QuizSolver Main Spec StringFacts ChainFacts.

(** C1 fails on the code: whatever the question record carries, the answer
    is posted to the hardcoded endpoint; with an explicit submission URL the
    explicit URL is not used, and without one the URL is not derived from
    the question URL either. *)
Theorem submission_url_is_hardcoded :
  (∀ (url_lib : UrlParser) quiz_url submit_url,
     submit_target quiz_url submit_url = Ok hardcoded_submit_url) ∧
  submit_target (url_lib := Scenario.no_urlparse) Scenario.quiz_1
    (Some Scenario.explicit_submit_url)
  = Ok hardcoded_submit_url ∧
  hardcoded_submit_url ≠ Scenario.explicit_submit_url ∧
  submit_target (url_lib := Scenario.no_urlparse) Scenario.quiz_1 None
  = Ok hardcoded_submit_url ∧
  hardcoded_submit_url ≠ re_sub_quiz 0 Scenario.quiz_1 ∧
  re_sub_quiz 0 Scenario.quiz_1 = lit "https://x.test/submit-1".
Proof.
  split_and!; [|by vm_compute..].
  intros url_lib quiz_url submit_url. apply submit_target_constant.
Qed.

(** C3 fails on the code: when the first question ends after the deadline,
    the loop is left by the deadline at the top of the second iteration,
    with one question attempted, but [question_count] is 2 and the closing
    log line reports 2 questions attempted. *)
Theorem timed_out_chain_counts_two :
  ∃ run, Scenario.run_chain Scenario.direct_plan Scenario.slow_world 5
         = Some (Ok run) ∧
         exit run = BreakTimeout ∧
         solved run = [Scenario.quiz_1] ∧
         question_count run = 2 ∧
         last (log run) = Some (LogAttempted 2).
Proof. eexists. split; [by vm_compute|]. by vm_compute. Qed.

(** C2 fails on the code: when the script of the plan exits with status 1
    the execution raises and the chain stops after this one question, but
    the error is caught inside [solve_quiz_chain], which returns normally,
    and the task is marked completed without an error entry. *)
Theorem failed_execution_recorded_as_completed :
  (∃ run, Scenario.run_chain Scenario.code_plan Scenario.quick_world 5
          = Some (Ok run) ∧
          exit run = BreakError
                       (Exn RuntimeError
                          (lit "Subprocess execution failed: Traceback: boom")) ∧
          solved run = [Scenario.quiz_1] ∧
          question_count run = 1) ∧
  (∃ active_tasks,
     Scenario.run_background Scenario.code_plan Scenario.quick_world 5
     = Some active_tasks ∧
     Scenario.task_field active_tasks "status" = Some (VStr (lit "completed")) ∧
     Scenario.task_field active_tasks "error" = None ∧
     Scenario.task_field active_tasks "failed_at" = None).
Proof.
  split.
  - eexists. split; [by vm_compute|]. by vm_compute.
  - eexists. split; [by vm_compute|]. by vm_compute.
Qed.

End ChainTheorems.

(** ** More on strings: prefixes and stripping *)

Module PrefixFacts.
Import Py StringFacts.

Lemma startswith_prefix (p s : pystr) : startswith p s = true ↔ p `prefix_of` s.
Proof.
  revert s. induction p as [|a p IH]; intros s; cbn.
  - split; [intros _; apply prefix_nil|done].
  - destruct s as [|b s].
    + split; [done|]. intros [k Hk]. done.
    + rewrite andb_true_iff, IH, N.eqb_eq. split.
      * intros [-> Hp]. by apply prefix_cons.
      * intros [k Hk]. injection Hk as -> ->. split; [done|]. by exists k.
Qed.

Lemma startswith_app (p s t : pystr) :
  startswith p s = true → startswith p (s ++ t) = true.
Proof.
  rewrite !startswith_prefix. intros Hp. by apply prefix_app_r.
Qed.

Lemma startswith_self_app (p t : pystr) : startswith p (p ++ t) = true.
Proof. apply startswith_prefix. by apply prefix_app_r. Qed.

(** What [lstrip] removes and where it stops. *)
Lemma lstrip_by_spec (f : N → bool) (s : pystr) :
  ∃ w, s = w ++ lstrip_by f s ∧ forallb f w = true
       ∧ (∀ c t, lstrip_by f s = c :: t → f c = false).
Proof.
  induction s as [|c s (w & Hs & Hw & Hstop)]; cbn.
  - exists []. by split_and!.
  - destruct (f c) eqn:Ec.
    + exists (c :: w). cbn. rewrite Ec, Hw. split_and!; [by f_equal|done|done].
    + exists []. split_and!; [done..|]. by intros c' t [= <- _].
Qed.

Lemma lstrip_by_stop (f : N → bool) (c : N) (s : pystr) :
  f c = false → lstrip_by f (c :: s) = c :: s.
Proof. cbn. by intros ->. Qed.

Lemma lstrip_by_skip (f : N → bool) (w s : pystr) :
  forallb f w = true → lstrip_by f (w ++ s) = lstrip_by f s.
Proof.
  induction w as [|c w IH]; cbn; [done|].
  intros [-> Hw]%andb_true_iff. by apply IH.
Qed.

(** What [rstrip] removes and where it stops. *)
Lemma rstrip_by_spec (f : N → bool) (s : pystr) :
  ∃ w, s = rstrip_by f s ++ w ∧ forallb f w = true
       ∧ (∀ t c, rstrip_by f s = t ++ [c] → f c = false).
Proof.
  unfold rstrip_by.
  destruct (lstrip_by_spec f (reverse s)) as (w & Hs & Hw & Hstop).
  exists (reverse w). split_and!.
  - rewrite <- reverse_app, <- Hs. by rewrite reverse_involutive.
  - rewrite forallb_forall in Hw |- *. intros x Hx. apply Hw.
    apply list_elem_of_In, (proj1 (elem_of_reverse x w)).
    by apply list_elem_of_In.
  - intros t c Ht. apply (Hstop c (reverse t)).
    rewrite <- (reverse_involutive (lstrip_by f (reverse s))), Ht.
    by rewrite reverse_app.
Qed.

Lemma rstrip_by_stop (f : N → bool) (s : pystr) (c : N) :
  f c = false → rstrip_by f (s ++ [c]) = s ++ [c].
Proof.
  intros Hc. unfold rstrip_by. rewrite reverse_snoc. cbn [lstrip_by].
  rewrite Hc. by rewrite reverse_cons, reverse_involutive.
Qed.

(** A prefix made of characters that are kept survives [rstrip]. *)
Lemma startswith_rstrip_by (f : N → bool) (p s : pystr) :
  forallb (λ c, negb (f c)) p = true →
  startswith p s = true → startswith p (rstrip_by f s) = true.
Proof.
  intros Hp Hs.
  destruct (rstrip_by_spec f s) as (w & Heq & Hw & _).
  revert Hs. rewrite Heq at 1. generalize (rstrip_by f s) as r.
  induction p as [|a p IH]; intros r; cbn; [done|].
  apply andb_true_iff in Hp as [Ha Hp].
  destruct r as [|b r]; cbn.
  - destruct w as [|b w]; [done|]. cbn in Hw.
    apply andb_true_iff in Hw as [Hb _].
    intros [->%N.eqb_eq _]%andb_true_iff. by rewrite Hb in Ha.
  - intros [-> Hr]%andb_true_iff. cbn. by apply IH.
Qed.

Lemma lstrip_by_fixed (f : N → bool) (s : pystr) :
  (∀ c t, s = c :: t → f c = false) → lstrip_by f s = s.
Proof.
  destruct s as [|c s]; [done|]. intros H. apply lstrip_by_stop. by eapply H.
Qed.

Lemma rstrip_by_fixed (f : N → bool) (s : pystr) :
  (∀ t c, s = t ++ [c] → f c = false) → rstrip_by f s = s.
Proof.
  destruct s as [|c s _] using rev_ind; [done|].
  intros H. apply rstrip_by_stop. by eapply H.
Qed.

(** [rstrip] does not uncover a first character that [lstrip] would
    remove. *)
Lemma lstrip_by_rstrip_by (f : N → bool) (s : pystr) :
  lstrip_by f (rstrip_by f (lstrip_by f s)) = rstrip_by f (lstrip_by f s).
Proof.
  destruct (lstrip_by_spec f s) as (_ & _ & _ & Hhead).
  destruct (rstrip_by_spec f (lstrip_by f s)) as (w & Heq & _ & _).
  apply lstrip_by_fixed. intros c t Hr. rewrite Hr in Heq.
  by apply (Hhead c (t ++ w)).
Qed.

(** Stripping twice is stripping once. *)
Lemma strip_by_idempotent (f : N → bool) (s : pystr) :
  strip_by f (strip_by f s) = strip_by f s.
Proof.
  unfold strip_by. rewrite lstrip_by_rstrip_by.
  destruct (rstrip_by_spec f (lstrip_by f s)) as (_ & _ & _ & Hlast).
  by apply rstrip_by_fixed.
Qed.

End PrefixFacts.

(** ** The wrapper of [requests] *)

Module RequestsTheorems.
Import Py Requests Spec PrefixFacts.

Lemma is_absolute_nonempty (url : pystr) : is_absolute url = true → url ≠ [].
Proof. by intros H ->. Qed.

Lemma _resolve_url_keeps_absolute (base_url url : pystr) :
  is_absolute url = true → _resolve_url base_url url = url.
Proof.
  intros Habs. unfold _resolve_url. destruct url as [|c url]; [done|].
  unfold is_absolute in Habs. by rewrite Habs.
Qed.

Lemma is_absolute_app (s t : pystr) :
  is_absolute s = true → is_absolute (s ++ t) = true.
Proof.
  unfold is_absolute. intros [H|H]%orb_true_iff; apply orb_true_iff;
    [left|right]; by apply startswith_app.
Qed.

(** X1: For a wrapper built on an absolute base URL, [_resolve_url] turns every
    non-empty URL into an absolute one that ends with the URL given, leaves
    absolute URLs as they are, and resolving twice is resolving once. *)
Theorem _resolve_url_absolute_idempotent (base_url url : pystr) :
  is_absolute base_url = true →
  (url ≠ [] → is_absolute (_resolve_url base_url url) = true)
  ∧ url `suffix_of` _resolve_url base_url url
  ∧ (is_absolute url = true → _resolve_url base_url url = url)
  ∧ _resolve_url base_url (_resolve_url base_url url)
    = _resolve_url base_url url.
Proof.
  intros Hbase.
  assert (url ≠ [] → is_absolute (_resolve_url base_url url) = true) as Habs.
  { intros Hne. unfold _resolve_url. destruct url as [|c url]; [done|].
    fold (is_absolute (c :: url)).
    destruct (is_absolute (c :: url)) eqn:E; [done|].
    destruct (startswith (lit "/") (c :: url)); by apply is_absolute_app. }
  split_and!.
  - done.
  - unfold _resolve_url. destruct url as [|c url]; [done|].
    destruct (_ || _); [done|].
    destruct (startswith (lit "/") (c :: url)).
    + by apply suffix_app_r.
    + apply suffix_app_r. by apply suffix_app_r.
  - apply _resolve_url_keeps_absolute.
  - destruct url as [|c url]; [done|].
    apply _resolve_url_keeps_absolute. by apply Habs.
Qed.

Lemma _resolve_url_absolute_idempotent_witness :
  Requests._resolve_url (Py.lit "https://x.test") (Py.lit "data/q1.csv")
  = Py.lit "https://x.test/data/q1.csv"
  ∧ Requests._resolve_url (Py.lit "https://x.test")
      (Py.lit "https://x.test/data/q1.csv")
    = Py.lit "https://x.test/data/q1.csv".
Proof.
  destruct (_resolve_url_absolute_idempotent
              (Py.lit "https://x.test") (Py.lit "data/q1.csv"))
    as (_ & _ & _ & Hidem); [reflexivity|].
  split; [reflexivity|]. exact Hidem.
Defined.

End RequestsTheorems.

(** ** The request model *)

Module ModelsTheorems.
Import Py Models Spec StringFacts PrefixFacts.

(** An absolute URL starts with the letter h, which is no whitespace. *)
Lemma absolute_head (c : N) (v : pystr) :
  is_absolute (c :: v) = true → isspace c = false.
Proof.
  unfold is_absolute.
  change (lit "http://") with (104%N :: lit "ttp://").
  change (lit "https://") with (104%N :: lit "ttps://").
  cbn [startswith]. destruct (N.eqb_spec 104 c) as [<-|]; [done|]. by cbn.
Qed.

(** X2: [validate_url] accepts exactly the values that start with [http://] or
    [https://]; what it returns is the value without its trailing
    whitespace, and it still starts with the scheme.  A value with
    whitespace in front of the scheme is rejected, not repaired. *)
Theorem validate_url_accepts_absolute (v : pystr) :
  (is_absolute v = true →
     ∃ u w, validate_url v = Ok u ∧ v = u ++ w ∧ forallb isspace w = true
            ∧ is_absolute u = true ∧ strip u = u)
  ∧ (is_absolute v = false →
       ∃ e, validate_url v = Raise e ∧ exn_cls e = ValueError)
  ∧ (∀ c, isspace c = true → ∃ e, validate_url (c :: v) = Raise e).
Proof.
  split_and!.
  - intros Habs. unfold validate_url. fold (is_absolute v). rewrite Habs.
    cbn [negb].
    assert (strip v = rstrip_by isspace v) as Hs.
    { unfold strip, strip_by. f_equal. apply lstrip_by_fixed.
      intros c t ->. by apply (absolute_head c t). }
    destruct (rstrip_by_spec isspace v) as (w & Hv & Hw & _).
    exists (strip v), w. split_and!.
    + done.
    + by rewrite Hs.
    + done.
    + rewrite Hs. unfold is_absolute in Habs |- *.
      apply orb_true_iff in Habs as [H|H]; apply orb_true_iff; [left|right];
        (apply startswith_rstrip_by; [by vm_compute|done]).
    + apply strip_by_idempotent.
  - intros Habs. unfold validate_url. fold (is_absolute v). rewrite Habs.
    by eexists.
  - intros c Hc. unfold validate_url. fold (is_absolute (c :: v)).
    destruct (is_absolute (c :: v)) eqn:Habs; [|by eexists].
    apply absolute_head in Habs. congruence.
Qed.

Lemma validate_url_accepts_absolute_witness :
  ∃ u w, Models.validate_url (Py.lit "https://x.test/quiz-1  ") = Py.Ok u
         ∧ Py.lit "https://x.test/quiz-1  " = u ++ w
         ∧ Spec.is_absolute u = true.
Proof.
  destruct (validate_url_accepts_absolute
              (Py.lit "https://x.test/quiz-1  "))
    as (Hacc & _ & _).
  destruct Hacc as (u & w & Hu & Hv & _ & Habs & _); [reflexivity|].
  by exists u, w.
Defined.

End ModelsTheorems.

(** ** The log, the registry of tasks and the endpoints *)

Module ServiceFacts.
Import Py Models Service SpecService StringFacts.

Lemma last_n_all {A : Type} (n : nat) (l : list A) :
  length l ≤ n → last_n n l = l.
Proof. intros H. unfold last_n. by replace (length l - n) with 0 by lia. Qed.

Lemma last_n_drop {A : Type} (n k : nat) (l : list A) :
  n + k ≤ length l → last_n n (drop k l) = last_n n l.
Proof.
  intros H. unfold last_n. rewrite drop_drop, length_drop. f_equal. lia.
Qed.

Lemma last_n_length {A : Type} (n : nat) (l : list A) :
  length (last_n n l) = min n (length l).
Proof. unfold last_n. rewrite length_drop. lia. Qed.

(** A bounded deque keeps the most recent entries. *)
Lemma deque_append_last_n {A : Type} (q : list A) (x : A) :
  length q ≤ maxlen → deque_append q x = last_n maxlen (q ++ [x]).
Proof.
  intros Hq. unfold deque_append.
  destruct (Nat.ltb_spec (length q) maxlen) as [Hlt|Hge].
  - rewrite last_n_all; [done|]. rewrite length_app. cbn. lia.
  - unfold last_n. rewrite length_app. cbn [length].
    replace (length q + 1 - maxlen) with 1 by lia.
    destruct q as [|y q]; [cbn in Hge; unfold maxlen in Hge; lia|].
    by cbn; rewrite drop_0.
Qed.

Lemma deque_append_length {A : Type} (q : list A) (x : A) :
  length q ≤ maxlen → length (deque_append q x) ≤ maxlen.
Proof.
  intros Hq. rewrite deque_append_last_n by done.
  rewrite last_n_length. lia.
Qed.

Lemma last_n_app_last_n {A : Type} (n : nat) (l r : list A) :
  last_n n (last_n n l ++ r) = last_n n (l ++ r).
Proof.
  destruct (Nat.le_gt_cases (length l) n) as [Hle|Hgt].
  - by rewrite (last_n_all n l).
  - unfold last_n at 2.
    rewrite <- (last_n_drop n (length l - n) (l ++ r)).
    + by rewrite drop_app_le by lia.
    + rewrite length_app. lia.
Qed.

Section WithCalendar.
Context `{calendar : Calendar}.

Lemma log_all_logs (entries : list (pystr * pystr)) (st : state) :
  length (quiz_logs st) ≤ maxlen →
  logged <$> quiz_logs (log_all entries st)
  = last_n maxlen ((logged <$> quiz_logs st) ++ entries)
  ∧ active_tasks (log_all entries st) = active_tasks st
  ∧ scheduled (log_all entries st) = scheduled st.
Proof.
  revert st. induction entries as [|[m l] entries IH]; intros st Hq.
  - cbn. rewrite app_nil_r, last_n_all; [done|]. by rewrite length_fmap.
  - change (log_all ((m, l) :: entries) st)
      with (log_all entries (add_log m l st)).
    destruct (IH (add_log m l st)) as (Hlogs & Htasks & Hsched).
    { cbn. by apply deque_append_length. }
    rewrite Hlogs, Htasks, Hsched. split_and!; [|done..].
    cbn [add_log quiz_logs fst snd].
    rewrite deque_append_last_n by done.
    unfold last_n at 2. rewrite fmap_drop, fmap_app. cbn [fmap list_fmap].
    unfold logged at 2. cbn [message level].
    replace (length (quiz_logs st ++ [_]))
      with (length ((logged <$> quiz_logs st) ++ [(m, l)]))
      by (by rewrite !length_app, length_fmap).
    fold (last_n maxlen ((logged <$> quiz_logs st) ++ [(m, l)])).
    rewrite last_n_app_last_n. by rewrite <- app_assoc.
Qed.
End WithCalendar.

Lemma slice_from_suffix {A : Type} (start : Z) (l : list A) :
  slice_from start l `suffix_of` l.
Proof. unfold slice_from. destruct (_ <? _)%Z; apply suffix_drop. Qed.

End ServiceFacts.

Module ServiceTheorems.
Import Py Models Service SpecService StringFacts ServiceFacts ScenarioService.

Section WithCalendar.
Context `{calendar : Calendar} `{case_mapping : CaseMapping}.
Variable settings : Credentials.

(** X3: The log never holds more than 200 entries, and after any run of
    [add_log] calls it holds the most recent 200 messages with their levels,
    oldest first; logging touches neither the tasks nor the scheduled
    calls. *)
Theorem log_keeps_most_recent (entries : list (pystr * pystr)) (st : state) :
  length (quiz_logs st) ≤ 200 →
  let st' := log_all entries st in
  length (quiz_logs st') ≤ 200
  ∧ logged <$> quiz_logs st' = last_n 200 ((logged <$> quiz_logs st) ++ entries)
  ∧ active_tasks st' = active_tasks st
  ∧ scheduled st' = scheduled st.
Proof.
  intros Hq st'. subst st'.
  destruct (log_all_logs entries st Hq) as (Hlogs & Ht & Hs).
  split_and!; [|exact Hlogs|done..].
  rewrite <- (length_fmap logged), Hlogs, last_n_length. unfold maxlen. lia.
Qed.

(** X4: [GET /logs]: what is returned is always the end of the log; a positive
    [limit] gives that many of the most recent entries (all of them when
    the log is shorter), [limit=0] gives the whole log and not an empty
    list, and a negative [limit] leaves out that many of the oldest
    entries. *)
Theorem get_logs_limit (limit : Z) (st : state) :
  get_logs limit st `suffix_of` quiz_logs st
  ∧ ((0 < limit)%Z → get_logs limit st = last_n (Z.to_nat limit) (quiz_logs st))
  ∧ (limit = 0%Z → get_logs limit st = quiz_logs st)
  ∧ ((limit < 0)%Z → get_logs limit st = drop (Z.to_nat (- limit)) (quiz_logs st))
  ∧ recent_logs st = last_n 10 (quiz_logs st).
Proof.
  split_and!.
  - apply slice_from_suffix.
  - intros Hl. unfold get_logs, slice_from, last_n.
    destruct (Z.ltb_spec (- limit) 0); [|lia]. f_equal. lia.
  - by intros ->.
  - intros Hl. unfold get_logs, slice_from.
    by destruct (Z.ltb_spec (- limit) 0); [lia|].
  - unfold recent_logs, slice_from, last_n. cbn [Z.ltb Z.compare].
    f_equal. lia.
Qed.

(** X5: [POST /quiz] answers 403 exactly when the secret differs from the
    configured one or the e-mail addresses differ after lower-casing, the
    secret being judged first; a rejected request registers no task and
    schedules no work: it only adds one warning to the log. *)
Theorem handle_quiz_rejects_unauthorized (request : QuizRequest) (st : state) :
  let '(reply, st') := handle_quiz settings request st in
  ((∃ detail, reply = HTTPException 403 detail) ↔ ¬ authorized settings request)
  ∧ (secret request ≠ STUDENT_SECRET settings →
       reply = HTTPException 403 (lit "Invalid secret"))
  ∧ (¬ authorized settings request →
       active_tasks st' = active_tasks st
       ∧ scheduled st' = scheduled st
       ∧ ∃ entry, quiz_logs st' = deque_append (quiz_logs st) entry
                  ∧ level entry = lit "warning").
Proof.
  unfold handle_quiz, authorized.
  destruct (str_eqb (secret request) (STUDENT_SECRET settings)) eqn:Es;
    cbn [negb].
  - apply str_eqb_eq in Es.
    destruct (str_eqb (str_lower (email request)) _) eqn:Ee; cbn [negb].
    + apply str_eqb_eq in Ee. split_and!.
      * split; [by intros [d Hd]|]. intros Hn. by destruct Hn.
      * done.
      * intros Hn. by destruct Hn.
    + apply str_eqb_neq in Ee. split_and!.
      * split; [by intros _ [_ H]|]. intros _. by eexists.
      * done.
      * intros _. cbn. split_and!; [done..|]. by eexists.
  - apply str_eqb_neq in Es. split_and!.
    + split; [by intros _ [H _]|]. intros _. by eexists.
    + done.
    + intros _. cbn. split_and!; [done..|]. by eexists.
Qed.

(** X6: An authorized request is answered 200 with a task id; under that id
    the registry holds a task in state "processing" for the URL of the
    request, the same id is handed to exactly one scheduled background
    call together with the e-mail, secret and URL of the request, and no
    other task is touched. *)
Theorem handle_quiz_registers_task (request : QuizRequest) (st : state) :
  authorized settings request →
  let '(reply, st') := handle_quiz settings request st in
  ∃ task_id content task,
    reply = JSONResponse 200 content
    ∧ assoc (lit "task_id") content = Some (VStr task_id)
    ∧ assoc (lit "status") content = Some (VStr (lit "received"))
    ∧ active_tasks st' !! task_id = Some task
    ∧ task !! lit "status" = Some (VStr (lit "processing"))
    ∧ task !! lit "url" = Some (VStr (url request))
    ∧ (∀ other, other ≠ task_id →
         active_tasks st' !! other = active_tasks st !! other)
    ∧ scheduled st'
      = scheduled st ++ [{| bg_email := email request;
                            bg_secret := secret request;
                            bg_url := url request;
                            bg_task_id := task_id |}].
Proof.
  intros [Hs He]. unfold handle_quiz.
  rewrite (proj2 (str_eqb_eq _ _) Hs), (proj2 (str_eqb_eq _ _) He).
  cbn [negb].
  eexists _, _, _. split; [reflexivity|].
  cbn [add_log quiz_logs active_tasks scheduled clock].
  split_and!.
  - by vm_compute.
  - by vm_compute.
  - apply lookup_insert_eq.
  - unfold Main.new_task. apply lookup_insert_eq.
  - unfold Main.new_task.
    rewrite !lookup_insert_ne by (by vm_compute). apply lookup_insert_eq.
  - intros other Hne. by rewrite lookup_insert_ne.
  - done.
Qed.
End WithCalendar.

(** X7: A task lives from [handle_quiz] to the [finally] clause of the
    background work: recording the outcome touches no other task and
    creates none, and once the task is forgotten the registry is what it
    was before the request. *)
Theorem task_lifecycle (task_id now : pystr) (outcome : result QuizSolver.chain_run)
    (task : gmap pystr pyval) (active_tasks : gmap pystr (gmap pystr pyval)) :
  (∀ other, other ≠ task_id →
     Main.record_outcome task_id now outcome active_tasks !! other
     = active_tasks !! other)
  ∧ (active_tasks !! task_id = None →
       Main.record_outcome task_id now outcome active_tasks = active_tasks
       ∧ forget_task task_id
           (Main.record_outcome task_id now outcome
              (<[task_id := task]> active_tasks))
         = active_tasks).
Proof.
  split.
  - intros other Hne. unfold Main.record_outcome, Main.set_field.
    destruct outcome; by rewrite !lookup_alter_ne.
  - intros Hnone. split.
    + apply map_eq. intros k. unfold Main.record_outcome, Main.set_field.
      destruct (decide (k = task_id)) as [->|Hne].
      * destruct outcome; rewrite !lookup_alter_eq, Hnone; done.
      * destruct outcome; by rewrite !lookup_alter_ne.
    + apply map_eq. intros k. unfold forget_task.
      destruct (decide (k = task_id)) as [->|Hne].
      * by rewrite lookup_delete_eq.
      * rewrite lookup_delete_ne by done.
        unfold Main.record_outcome, Main.set_field.
        destruct outcome; rewrite !lookup_alter_ne by done;
          by rewrite lookup_insert_ne.
Qed.

Lemma log_keeps_most_recent_witness :
  logged <$> quiz_logs
    (log_all (calendar := stopped_calendar)
       [(lit "one", lit "info"); (lit "two", lit "error")] idle)
  = [(lit "one", lit "info"); (lit "two", lit "error")].
Proof.
  destruct (log_keeps_most_recent (calendar := stopped_calendar)
              [(lit "one", lit "info"); (lit "two", lit "error")] idle)
    as (_ & Hlogs & _); [cbn; lia|].
  rewrite Hlogs. reflexivity.
Defined.

Lemma get_logs_limit_witness :
  get_logs 1 (State [LogEntry [] (lit "a") []; LogEntry [] (lit "b") []] ∅ [] 0)
  = [LogEntry [] (lit "b") []].
Proof.
  destruct (get_logs_limit 1
              (State [LogEntry [] (lit "a") []; LogEntry [] (lit "b") []] ∅ [] 0))
    as (_ & Hpos & _).
  rewrite Hpos by lia. reflexivity.
Defined.

Lemma handle_quiz_rejects_unauthorized_witness :
  (handle_quiz (calendar := stopped_calendar) (case_mapping := ascii_case)
     student
     {| email := lit "student@x.test"; secret := lit "guess";
        url := lit "https://x.test/quiz-1" |} idle).1
  = HTTPException 403 (lit "Invalid secret").
Proof.
  pose proof (handle_quiz_rejects_unauthorized
                (calendar := stopped_calendar) (case_mapping := ascii_case)
                student
                {| email := lit "student@x.test"; secret := lit "guess";
                   url := lit "https://x.test/quiz-1" |} idle) as H.
  destruct (handle_quiz student _ idle) as [reply st'].
  destruct H as (_ & Hsecret & _). apply Hsecret. by vm_compute.
Defined.

Lemma handle_quiz_registers_task_witness :
  ∃ content st',
    handle_quiz (calendar := stopped_calendar) (case_mapping := ascii_case)
      student good_request idle = (JSONResponse 200 content, st')
    ∧ length (scheduled st') = 1.
Proof.
  pose proof (handle_quiz_registers_task
                (calendar := stopped_calendar) (case_mapping := ascii_case)
                student good_request idle) as H.
  destruct (handle_quiz student good_request idle) as [reply st'].
  destruct H as (task_id & content & task & -> & _ & _ & _ & _ & _ & _ & Hs).
  { split; reflexivity. }
  exists content, st'. split; [reflexivity|]. rewrite Hs. reflexivity.
Defined.

Lemma task_lifecycle_witness :
  forget_task Scenario.task_id
    (Main.record_outcome Scenario.task_id (lit "2025-11-03T08:53:25")
       (Raise (Exn RuntimeError (lit "boom"))) Scenario.registered)
  = ∅.
Proof.
  destruct (task_lifecycle Scenario.task_id
              (lit "2025-11-03T08:53:25")
              (Raise (Exn RuntimeError (lit "boom")))
              (Main.new_task Scenario.quiz_1 (lit "2025-11-03T08:53:20")) ∅)
    as (_ & Hfresh).
  destruct Hfresh as (_ & Hback); [reflexivity|]. exact Hback.
Defined.

End ServiceTheorems.

(** ** The chain: deadline and links *)

Module ChainMoreFacts.
Import Py LLMHandler QuizSolver Main Spec SpecChain StringFacts.

Section WithWorld.
Context `{json_lib : JsonDecoder} `{unicode_lib : UnicodeData} `{url_lib : UrlParser} `{interpreter : Interpreter}
        `{extractors : Extractors} `{decoders : Decoders} `{outside : Outside}.
Variable settings : Settings.


Lemma linked_snoc (email secret : pystr) (done_urls : list pystr)
    (current : pystr) :
  linked email secret done_urls →
  (∀ u, last done_urls = Some u →
     ∃ r, _solve_single_question (length done_urls) email secret u = Ok r
          ∧ url r = Some current) →
  linked email secret (done_urls ++ [current]).
Proof.
  intros Hl Hlast i u v Hu Hv.
  destruct (decide (S i < length done_urls)) as [Hin|Hout].
  - rewrite lookup_app_l in Hu by lia. rewrite lookup_app_l in Hv by lia.
    by apply (Hl i).
  - assert (S i = length done_urls) as Hi.
    { apply lookup_lt_Some in Hv. rewrite length_app in Hv. cbn in Hv. lia. }
    rewrite lookup_app_l in Hu by lia.
    rewrite lookup_app_r in Hv by lia.
    replace (S i - length done_urls) with 0 in Hv by lia.
    injection Hv as <-. rewrite Hi. apply Hlast.
    rewrite last_lookup. rewrite <- Hi. exact Hu.
Qed.

(** The loop hands to the pipeline the URL it was given and then the URLs
    the answers name, one after the other. *)
Lemma chain_loop_linked (fuel : nat) (email secret : pystr)
    (current_url : option pystr) (count : nat) (done_urls : list pystr)
    (lines : list log_line) (run : chain_run) :
  count = length done_urls →
  linked email secret done_urls →
  (∀ u, last done_urls = Some u →
     ∃ r, _solve_single_question count email secret u = Ok r
          ∧ url r = current_url) →
  chain_loop settings fuel email secret current_url count done_urls lines
  = Some run →
  linked email secret (solved run)
  ∧ (solved run = done_urls
     ∨ ∃ rest, solved run = done_urls ++ default [] current_url :: rest).
Proof.
  revert current_url count done_urls lines.
  induction fuel as [|fuel IH];
    intros current_url count done_urls lines Hc Hl Hlast; [done|].
  cbn [chain_loop].
  destruct current_url as [[|c u]|];
    [intros [= <-]; split; [done|by left] | |
     intros [= <-]; split; [done|by left]].
  destruct (_ >? _)%Z; [intros [= <-]; split; [done|by left]|].
  assert (linked email secret (done_urls ++ [c :: u])) as Hl'.
  { apply linked_snoc; [done|]. rewrite <- Hc. exact Hlast. }
  assert (S count = length (done_urls ++ [c :: u])) as Hc'.
  { rewrite length_app. cbn. lia. }
  assert (∀ e lines',
            Some (ChainRun e (S count) (done_urls ++ [c :: u]) lines')
            = Some run →
            linked email secret (solved run)
            ∧ (solved run = done_urls
               ∨ ∃ rest, solved run
                         = done_urls ++ default [] (Some (c :: u)) :: rest))
    as Hstop.
  { intros e lines' [= <-]. split; [done|]. right. by exists []. }
  destruct (_solve_single_question (S count) email secret (c :: u))
    as [result|e] eqn:Esolve; [|apply Hstop].
  assert (∀ lines',
            chain_loop settings fuel email secret (url result) (S count)
              (done_urls ++ [c :: u]) lines' = Some run →
            linked email secret (solved run)
            ∧ (solved run = done_urls
               ∨ ∃ rest, solved run
                         = done_urls ++ default [] (Some (c :: u)) :: rest))
    as Hnext.
  { intros lines' Hrun.
    apply IH in Hrun as [Hlinked Hshape]; [|done|done|].
    - split; [done|]. right. destruct Hshape as [->|[rest ->]].
      + by exists [].
      + rewrite <- app_assoc. by eexists.
    - intros u0. rewrite last_snoc. intros [= <-]. by eexists. }
  destruct (correct result).
  - destruct (falsy (url result)); [apply Hstop|apply Hnext].
  - destruct (negb (falsy (url result))); [apply Hnext|apply Hstop].
Qed.
End WithWorld.

End ChainMoreFacts.

Module ChainMoreTheorems.
Import Py LLMHandler QuizSolver Main Spec SpecChain StringFacts ChainMoreFacts.

Section WithWorld.
Context `{json_lib : JsonDecoder} `{unicode_lib : UnicodeData} `{url_lib : UrlParser} `{interpreter : Interpreter}
        `{extractors : Extractors} `{decoders : Decoders} `{outside : Outside}.
Variable settings : Settings.


(** X9: The questions a chain attempts are the initial URL and then, for each
    question, the next URL named in the server's answer to the question
    before: the chain visits no URL of its own making, and question
    number i is the i-th URL visited. *)
Theorem chain_follows_server_links (fuel : nat)
    (email secret initial_url : pystr) (run : chain_run) :
  solve_quiz_chain settings fuel email secret initial_url = Some (Ok run) →
  linked email secret (solved run)
  ∧ (solved run = [] ∨ head (solved run) = Some initial_url).
Proof.
  unfold solve_quiz_chain.
  destruct (chain_loop _ _ _ _ _ _ _ _) as [run0|] eqn:E; [|done].
  intros [= <-]. cbn [solved].
  apply chain_loop_linked in E as [Hl Hshape]; [|done| |done].
  - split; [done|]. destruct Hshape as [->|[rest ->]]; [by left|by right].
  - intros i u v Hu. done.
Qed.
End WithWorld.


Lemma chain_follows_server_links_witness :
  ∃ run, Scenario.run_chain Scenario.direct_plan Scenario.quick_world 5
         = Some (Ok run)
         ∧ (solved run = [] ∨ head (solved run) = Some Scenario.quiz_1).
Proof.
  assert (∃ run, Scenario.run_chain Scenario.direct_plan Scenario.quick_world 5
                 = Some (Ok run)) as [run Hrun].
  { eexists. by vm_compute. }
  exists run. split; [exact Hrun|].
  unfold Scenario.run_chain in Hrun.
  exact (proj2 (chain_follows_server_links
           (json_lib := Scenario.decoder_of Scenario.direct_plan)
           (unicode_lib := Scenario.ascii_printable)
           (url_lib := Scenario.no_urlparse)
           (interpreter := Scenario.failing_interpreter)
           (extractors := Scenario.bare_page)
           (decoders := Scenario.one_page_decoders)
           (outside := Scenario.quick_world)
           default_settings 5 Scenario.email Scenario.secret Scenario.quiz_1
           run Hrun)).
Defined.

End ChainMoreTheorems.

(** ** Plans that run code and plans that cannot be read *)

Module ExecuteMoreFacts.
Import Py LLMHandler Spec SpecExecute StringFacts.

Lemma any_in_str (kws : list pystr) (s : pystr) :
  any_in kws (VStr s) = Ok (existsb (λ kw, contains kw s) kws).
Proof.
  induction kws as [|kw kws IH]; [done|].
  cbn [any_in str_in existsb]. rewrite bind_Ok.
  by destruct (contains kw s).
Qed.

Lemma any_in_scalar (kw : pystr) (kws : list pystr) (v : pyval) :
  scalar v = true →
  any_in (kw :: kws) v
  = Raise (Exn TypeError
             (lit "argument of type '" ++ type_name v ++ lit "' is not iterable")).
Proof. by destruct v. Qed.

Lemma get_present (d : list (pystr * pyval)) (key : pystr) (v dflt : pyval) :
  assoc key d = Some v → get (VDict d) key dflt = Ok v.
Proof. cbn. by intros ->. Qed.

End ExecuteMoreFacts.

Module ExecuteMoreTheorems.
Import Py LLMHandler Spec SpecExecute StringFacts ExecuteMoreFacts ScenarioExecute.

Section WithOracles.
Context `{json_lib : JsonDecoder} `{url_lib : UrlParser} `{interpreter : Interpreter}.

(** X10: When [solution_code] holds a marker of code, the text is written
    to the script file and the run returns with status 0 and decoded
    output, the answer is the text the script printed, without the
    surrounding whitespace, whatever [answer_type] says: the output of a
    script is never converted to a number, a boolean or an object.  When
    the text cannot be written, or the run raises, as it does when the
    output cannot be decoded, that exception is what [execute_solution]
    raises. *)
Theorem script_output_returned_as_text (plan context : list (pystr * pyval))
    (code : pystr) :
  assoc (lit "solution_code") plan = Some (VStr code) →
  looks_like_code code = true →
  assoc (lit "quiz_url") context = None →
  (∀ stdout stderr,
     tempfile_write code = Ok () →
     subprocess_run code = Exited 0 stdout stderr →
     execute_solution (VDict plan) (VDict context) = Ok (VStr (strip stdout)))
  ∧ (∀ e, tempfile_write code = Raise e →
          execute_solution (VDict plan) (VDict context) = Raise e)
  ∧ (∀ e, tempfile_write code = Ok () →
          subprocess_run code = RunRaised e →
          execute_solution (VDict plan) (VDict context) = Raise e).
Proof.
  intros Hcode Hlooks Hctx.
  assert (execute_solution (VDict plan) (VDict context)
          = _execute_python_solution (VStr code) (VDict context)) as ->.
  { unfold execute_solution. cbn [get]. rewrite !bind_Ok, Hcode.
    cbn [default from_option id]. rewrite any_in_str.
    fold (looks_like_code code). by rewrite Hlooks, bind_Ok. }
  unfold _execute_python_solution, get. rewrite Hctx.
  split_and!.
  - intros stdout stderr Hwrite Hrun.
    destruct (truthy (VDict context)); cbn; rewrite Hwrite; cbn;
      by rewrite Hrun.
  - intros e Hwrite.
    destruct (truthy (VDict context)); cbn; by rewrite Hwrite.
  - intros e Hwrite Hrun.
    destruct (truthy (VDict context)); cbn; rewrite Hwrite; cbn;
      by rewrite Hrun.
Qed.

(** X11: A plan that is not a JSON object makes [execute_solution] raise
    [AttributeError], and a plan whose [solution_code] is [null], a boolean
    or a number makes it raise [TypeError]: the membership test on the
    code markers is made before the type of the field is looked at. *)
Theorem unreadable_plan_raises (plan context : pyval) :
  (is_dict plan = false →
     ∃ e, execute_solution plan context = Raise e
          ∧ exn_cls e = AttributeError)
  ∧ (∀ d v, plan = VDict d → assoc (lit "solution_code") d = Some v →
       scalar v = true →
       execute_solution plan context
       = Raise (Exn TypeError
                  (lit "argument of type '" ++ type_name v
                   ++ lit "' is not iterable"))).
Proof.
  split.
  - intros Hd. destruct plan; try done; by eexists.
  - intros d v -> Hv Hs. unfold execute_solution.
    cbn [get]. rewrite !bind_Ok, Hv. cbn [default from_option id].
    unfold code_keywords. by rewrite any_in_scalar.
Qed.
End WithOracles.

Lemma script_output_returned_as_text_witness :
  execute_solution (json_lib := Scenario.rejecting_decoder)
    (url_lib := Scenario.no_urlparse) (interpreter := printing_interpreter)
    (VDict script_plan) (VDict [])
  = Ok (VStr (lit "42")).
Proof.
  destruct (script_output_returned_as_text
              (json_lib := Scenario.rejecting_decoder)
              (url_lib := Scenario.no_urlparse)
              (interpreter := printing_interpreter) script_plan []
              (lit "import math; print(6 * 7)")) as (Hprinted & _);
    [reflexivity..|].
  rewrite (Hprinted (lit "42" ++ [10%N]) []); reflexivity.
Defined.

Lemma unreadable_plan_raises_witness :
  execute_solution (json_lib := Scenario.rejecting_decoder)
    (url_lib := Scenario.no_urlparse) (interpreter := printing_interpreter)
    (VDict null_plan) (VDict [])
  = Raise (Exn TypeError (lit "argument of type 'NoneType' is not iterable")).
Proof.
  destruct (unreadable_plan_raises
              (json_lib := Scenario.rejecting_decoder)
              (url_lib := Scenario.no_urlparse)
              (interpreter := printing_interpreter)
              (VDict null_plan) (VDict [])) as (_ & Hnull).
  rewrite (Hnull null_plan VNone); reflexivity.
Defined.

End ExecuteMoreTheorems.

(** ** Replies in a code fence *)

Module FenceFacts.
Import Py LLMHandler Spec SpecExecute StringFacts PrefixFacts.

Lemma rstrip_by_skip (f : N → bool) (s w : pystr) :
  forallb f w = true → rstrip_by f (s ++ w) = rstrip_by f s.
Proof.
  intros Hw. unfold rstrip_by. rewrite reverse_app, lstrip_by_skip; [done|].
  rewrite forallb_forall in Hw |- *. intros x Hx. apply Hw.
  apply list_elem_of_In, (proj1 (elem_of_reverse x w)).
  by apply list_elem_of_In.
Qed.

Lemma contains_char (c : N) (a b : pystr) : contains [c] (a ++ c :: b) = true.
Proof.
  induction a as [|x a IH]; cbn.
  - by rewrite N.eqb_refl.
  - rewrite IH. apply orb_true_r.
Qed.

Lemma after_first_app (c : N) (a b : pystr) :
  c ∉ a → after_first c (a ++ c :: b) = b.
Proof.
  induction a as [|x a IH]; cbn; intros Hc.
  - by rewrite N.eqb_refl.
  - apply not_elem_of_cons in Hc as [Hx Ha].
    destruct (N.eqb_spec x c) as [->|_]; [done|]. by apply IH.
Qed.

Lemma is_backtick_false (c : N) : c ≠ 96%N → is_backtick c = false.
Proof.
  intros Hc. unfold is_backtick. cbn. by destruct (N.eqb_spec c 96).
Qed.

Lemma fenced_head (tag body : pystr) :
  ∃ rest, fenced tag body = 96%N :: rest.
Proof. by eexists. Qed.

Lemma fenced_last (tag body : pystr) :
  ∃ front, fenced tag body = front ++ [96%N].
Proof.
  exists ([96; 96; 96]%N ++ tag ++ [10%N] ++ body ++ [96; 96]%N).
  unfold fenced, backticks3. by rewrite <- !app_assoc.
Qed.

(** Whitespace around a fenced reply is all that [strip] removes. *)
Lemma strip_fenced (lead trail tag body : pystr) :
  forallb isspace lead = true → forallb isspace trail = true →
  strip (lead ++ fenced tag body ++ trail) = fenced tag body.
Proof.
  intros Hl Ht. unfold strip, strip_by.
  rewrite lstrip_by_skip by done.
  destruct (fenced_head tag body) as [rest Hhead].
  rewrite lstrip_by_fixed.
  - rewrite rstrip_by_skip by done.
    destruct (fenced_last tag body) as [front ->].
    by apply rstrip_by_stop.
  - rewrite Hhead. by intros c t [= <- _].
Qed.

(** Stripping the backticks of a fenced reply leaves the tag line and the
    body. *)
Lemma strip_chars_fenced (tag body : pystr) :
  head tag ≠ Some 96%N → last body ≠ Some 96%N →
  strip_chars [96%N] (fenced tag body) = tag ++ 10%N :: body.
Proof.
  intros Htag Hbody. unfold strip_chars, strip_by, fenced.
  fold is_backtick.
  rewrite lstrip_by_skip by done.
  rewrite lstrip_by_fixed.
  - cbn [app].
    replace (tag ++ 10%N :: body ++ backticks3)
      with ((tag ++ 10%N :: body) ++ backticks3)
      by (by rewrite <- app_assoc).
    rewrite rstrip_by_skip by done.
    apply rstrip_by_fixed. intros t c Heq. apply is_backtick_false.
    intros ->. apply Hbody.
    destruct body as [|z body' _] using rev_ind.
    + by apply (app_inj_tail tag t) in Heq as [_ [=]].
    + change (tag ++ 10%N :: body' ++ [z])
        with (tag ++ (10%N :: body') ++ [z]) in Heq.
      rewrite app_assoc in Heq.
      apply app_inj_tail in Heq as [_ ->]. apply last_snoc.
  - intros c t Heq. apply is_backtick_false. intros ->.
    destruct tag as [|x tag]; [done|]. cbn in Heq.
    injection Heq as -> _. by apply Htag.
Qed.

End FenceFacts.

Module FenceTheorems.
Import Py LLMHandler Spec SpecExecute StringFacts PrefixFacts FenceFacts.

Section WithDecoder.
Context `{json_lib : JsonDecoder} `{unicode_lib : UnicodeData}.

(** X12: A reply wrapped in a code fence, with or without a language tag on
    the opening line and with any whitespace around it, is unwrapped: when
    the body between the first line and the closing backticks decodes as
    JSON, the plan is the decoded body. *)
Theorem fenced_reply_unwrapped (lead trail tag body : pystr) (v : pyval) :
  forallb isspace lead = true → forallb isspace trail = true →
  10%N ∉ tag → head tag ≠ Some 96%N → last body ≠ Some 96%N →
  json_loads body = Some v →
  _process_llm_response (lead ++ fenced tag body ++ trail) = v.
Proof.
  intros Hl Ht Hnl Htag Hbody Hv. unfold _process_llm_response.
  rewrite strip_fenced by done.
  assert (startswith backticks3 (fenced tag body) = true) as ->
    by apply startswith_self_app.
  rewrite strip_chars_fenced by done.
  rewrite contains_char, after_first_app by done.
  unfold _parse_json_response. by rewrite Hv.
Qed.
End WithDecoder.

Lemma fenced_reply_unwrapped_witness :
  _process_llm_response
    (json_lib := {| json_loads := λ s,
                      if str_eqb s (lit "{}" ++ [10%N])
                      then Some (VDict []) else None |})
    (unicode_lib := Scenario.ascii_printable)
    (lit "  " ++ fenced (lit "json") (lit "{}" ++ [10%N]) ++ [10%N])
  = VDict [].
Proof.
  apply fenced_reply_unwrapped; try reflexivity.
  - apply (bool_decide_unpack _). by vm_compute.
  - by vm_compute.
  - by vm_compute.
Defined.

End FenceTheorems.

(** ** The effects of a batch of downloads *)

Module DownloadMoreFacts.
Import Py LLMHandler QuizSolver Spec SpecDownload StringFacts.



Section WithDecoders.
Context `{decoders : Decoders}.
Variable http_get : nat → pystr → get_outcome.




(** What the attempts store comes from an answer to a request for the
    URL, with status 200 and a body; when nothing is stored, an error text
    is left. *)
Lemma attempt_loop_stored (url : pystr) (attempts : list nat)
    (last_error : option pystr) (st : net) :
  match (attempt_loop http_get url attempts last_error st).1 with
  | (Some p, _) =>
      ∃ n r, http_get n url = Responded r ∧ status_code r = 200%Z
             ∧ content r ≠ [] ∧ p = store url r
  | (None, last_error') =>
      attempts ≠ [] ∨ is_Some last_error → is_Some last_error'
  end.
Proof.
  revert last_error st.
  induction attempts as [|a rest IH]; intros last_error st.
  - cbn. by intros [|].
  - cbn [attempt_loop].
    assert (∀ msg st1,
              match (attempt_loop http_get url rest (Some msg) st1).1 with
              | (Some p, _) =>
                  ∃ n r, http_get n url = Responded r ∧ status_code r = 200%Z
                         ∧ content r ≠ [] ∧ p = store url r
              | (None, last_error') =>
                  a :: rest ≠ [] ∨ is_Some last_error → is_Some last_error'
              end) as Hnext.
    { intros msg st1. specialize (IH (Some msg) st1).
      destruct (attempt_loop http_get url rest (Some msg) st1)
        as [[[p|] le'] st'']; cbn [fst] in *; [done|].
      intros _. apply IH. by right. }
    destruct (http_get (requests st) url) as [r|e] eqn:Eget.
    + destruct (Z.eqb_spec (status_code r) 200) as [Hs|Hs]; cbn [negb];
        [|apply Hnext].
      destruct (Nat.eqb_spec (length (content r)) 0) as [Hc|Hc];
        [apply Hnext|].
      cbn [fst]. exists (requests st), r. split_and!; [done..| |done].
      intros Hnil. by rewrite Hnil in Hc.
    + destruct (exn_cls e); apply Hnext.
Qed.



(** The entry a download leaves for its URL, and the other entries. *)
Lemma download_one_entry (files : gmap pystr payload) (st : net)
    (url : pystr) :
  let files' := (download_one http_get (files, st) url).1 in
  (∀ u, u ≠ url → files' !! u = files !! u)
  ∧ ∃ p, files' !! url = Some p
         ∧ ((∃ n r, http_get n url = Responded r ∧ status_code r = 200%Z
                    ∧ content r ≠ [] ∧ p = store url r)
            ∨ ∃ msg, p = PError (Some msg) 3).
Proof.
  pose proof (attempt_loop_stored url (seq 0 (max_retries + 1)) None st)
    as Hs.
  cbn zeta. unfold download_one.
  destruct (attempt_loop _ _ _ _ _) as [[[p|] err] st']; cbn [fst] in *.
  - split; [intros u Hu; by rewrite lookup_insert_ne|].
    exists p. rewrite lookup_insert_eq. split; [done|by left].
  - split; [intros u Hu; by rewrite lookup_insert_ne|].
    destruct Hs as [msg ->]; [by left|].
    eexists. rewrite lookup_insert_eq. split; [done|]. right. by eexists.
Qed.
End WithDecoders.

End DownloadMoreFacts.

Module DownloadMoreTheorems.
Import Py LLMHandler QuizSolver Spec SpecDownload StringFacts DownloadMoreFacts.

Section WithDecoders.
Context `{decoders : Decoders}.
Variable http_get : nat → pystr → get_outcome.

(** X13: The dict returned by [download_files] has an entry for a URL exactly
    when the URL is in the batch; every entry is either what was decoded
    from an answer to a request for that URL with status 200 and a body,
    or an error entry that carries an error text and 3 attempts. *)
Theorem download_files_entries (urls : list pystr) (u : pystr) :
  (is_Some (download_files http_get urls !! u) ↔ u ∈ urls)
  ∧ ∀ p, download_files http_get urls !! u = Some p →
         (∃ n r, http_get n u = Responded r ∧ status_code r = 200%Z
                 ∧ content r ≠ [] ∧ p = store u r)
         ∨ ∃ msg, p = PError (Some msg) 3.
Proof.
  unfold download_files, download_files_from.
  assert (∀ acc,
            let files := (fold_left (download_one http_get) urls acc).1 in
            (is_Some (files !! u) ↔ u ∈ urls ∨ is_Some (acc.1 !! u))
            ∧ ∀ p, files !! u = Some p →
                   (u ∈ urls ∧
                    ((∃ n r, http_get n u = Responded r
                             ∧ status_code r = 200%Z
                             ∧ content r ≠ [] ∧ p = store u r)
                     ∨ ∃ msg, p = PError (Some msg) 3))
                   ∨ acc.1 !! u = Some p) as Hgen.
  { induction urls as [|x urls IH]; intros [files st]; cbn [fold_left].
    - cbn. split; [|by right]. split; [by right|].
      intros [Hu|Hu]; [by apply elem_of_nil in Hu|done].
    - destruct (download_one_entry http_get files st x) as (Hother & p0 & Hx & Hp0).
      cbn zeta in Hother.
      destruct (download_one http_get (files, st) x) as [files1 st1] eqn:E.
      cbn [fst] in *. specialize (IH (files1, st1)). cbn zeta in IH.
      cbn [fst] in IH. destruct IH as [IHdom IHval]. split.
      + rewrite IHdom, elem_of_cons.
        destruct (decide (u = x)) as [->|Hne].
        * rewrite Hx. split; [intros _; by left; left|]. intros _. by right.
        * rewrite (Hother u Hne). naive_solver.
      + intros p Hp. apply IHval in Hp as [[Hin Hp]|Hp].
        * left. split; [by apply elem_of_cons; right|done].
        * destruct (decide (u = x)) as [->|Hne].
          -- rewrite Hx in Hp. injection Hp as <-. left.
             split; [by apply elem_of_cons; left|done].
          -- right. by rewrite <- (Hother u Hne). }
  specialize (Hgen (∅, Net 0 [])). cbn zeta in Hgen. cbn [fst] in Hgen.
  destruct Hgen as [Hdom Hval]. split.
  - rewrite Hdom, lookup_empty. split; [|by left].
    intros [H|[? [=]]]. done.
  - intros p Hp. apply Hval in Hp as [[_ Hp]|Hp]; [done|].
    by rewrite lookup_empty in Hp.
Qed.


(** X15: [_parse_pdf] on a file the reader opens and whose pages all give
    their text returns the number of pages and the pages numbered from 1
    in the order of the file; when the reader or a page raises, the
    result is the error entry with the text of the exception. *)
Theorem _parse_pdf_numbers_pages (pdf_bytes : bytes) :
  match _parse_pdf pdf_bytes with
  | PPdf num_pages pages =>
      PdfReader pdf_bytes = Ok (Ok <$> (snd <$> pages))
      ∧ num_pages = length pages
      ∧ fst <$> pages = seq 1 num_pages
  | PPdfError error =>
      ∃ e, error = exn_str e
           ∧ (PdfReader pdf_bytes = Raise e
              ∨ ∃ reader_pages, PdfReader pdf_bytes = Ok reader_pages
                                ∧ Raise e ∈ reader_pages)
  | _ => False
  end.
Proof.
  unfold _parse_pdf.
  destruct (PdfReader pdf_bytes) as [reader_pages|e]; rewrite ?bind_Ok;
    [|by exists e; split; [|left]].
  assert (∀ i,
            match extract_pages i reader_pages with
            | Ok pages => reader_pages = Ok <$> (snd <$> pages)
                          ∧ length reader_pages = length pages
                          ∧ fst <$> pages = seq (S i) (length pages)
            | Raise e => Raise e ∈ reader_pages
            end) as Hpages.
  { induction reader_pages as [|page rest IH]; intros i; [done|].
    cbn [extract_pages]. destruct page as [text|e]; rewrite ?bind_Ok.
    - specialize (IH (S i)).
      destruct (extract_pages (S i) rest) as [more|e]; rewrite ?bind_Ok.
      + destruct IH as (-> & Hlen & Hnum). cbn. rewrite Hnum.
        split_and!; [done|by rewrite Hlen|f_equal; lia].
      + rewrite bind_Raise. by apply elem_of_cons; right.
    - rewrite bind_Raise. by apply elem_of_cons; left. }
  specialize (Hpages 0).
  destruct (extract_pages 0 reader_pages) as [pages|e]; rewrite ?bind_Ok.
  - destruct Hpages as (-> & Hlen & Hnum). split_and!; [done|done|].
    by rewrite Hlen.
  - rewrite bind_Raise. exists e. split; [done|]. right. by eexists.
Qed.
End WithDecoders.

Lemma download_files_entries_witness :
  download_files (decoders := Scenario.one_page_decoders)
    Scenario.flaky_server [lit "https://x.test/notes.txt"]
  !! lit "https://x.test/other.txt" = None.
Proof.
  destruct (download_files_entries
              (decoders := Scenario.one_page_decoders) Scenario.flaky_server
              [lit "https://x.test/notes.txt"] (lit "https://x.test/other.txt"))
    as (Hdom & _).
  apply eq_None_not_Some. intros Hsome. apply Hdom in Hsome.
  apply list_elem_of_singleton in Hsome. by vm_compute in Hsome.
Defined.


End DownloadMoreTheorems.

(** ** The pruned page *)

Module TreeFacts.
Import Py LLMHandler QuizSolver Spec StringFacts.

(** Induction on a parsed page, with the children of a tag covered. *)
Lemma node_rect_children (P : node → Prop) :
  (∀ s, P (Text s)) →
  (∀ name attrs children, Forall P children → P (Tag name attrs children)) →
  ∀ n, P n.
Proof.
  intros Htext Htag. fix IH 1. intros [s|name attrs children]; [apply Htext|].
  apply Htag. induction children as [|c children IHc]; constructor;
    [apply IH|apply IHc].
Qed.

Lemma decompose_tag (names : list pystr) (name : pystr)
    (attrs : list (pystr * pystr)) (children : list node) :
  decompose names (Tag name attrs children)
  = if existsb (str_eqb name) names then []
    else [Tag name attrs (children ≫= decompose names)].
Proof. reflexivity. Qed.

Lemma find_all_from_tag (name nm : pystr) (attrs : list (pystr * pystr))
    (children : list node) :
  find_all_from name (Tag nm attrs children)
  = (if str_eqb nm name then [Tag nm attrs children] else [])
    ++ (children ≫= find_all_from name).
Proof. reflexivity. Qed.

Lemma bind_nil_Forall {A B : Type} (f : A → list B) (l : list A) :
  Forall (λ x, f x = []) l → l ≫= f = [].
Proof.
  induction 1 as [|x l Hx _ IH]; [done|]. cbn. by rewrite Hx, IH.
Qed.

Lemma bind_fixed_Forall {A : Type} (f g : A → list A) (l : list A) :
  Forall (λ x, g x ≫= f = g x) l → (l ≫= g) ≫= f = l ≫= g.
Proof.
  induction 1 as [|x l Hx _ IH]; [done|].
  cbn. by rewrite bind_app, Hx, IH.
Qed.

Lemma bind_bind_nil {A B : Type} (f : A → list B) (g : A → list A)
    (l : list A) :
  Forall (λ x, g x ≫= f = []) l → (l ≫= g) ≫= f = [].
Proof.
  induction 1 as [|x l Hx _ IH]; [done|].
  cbn. by rewrite bind_app, Hx, IH.
Qed.

(** No tag with a pruned name is found in what is left of a node. *)
Lemma decompose_find_all_from (names : list pystr) (name : pystr) (n : node) :
  existsb (str_eqb name) names = true →
  decompose names n ≫= find_all_from name = [].
Proof.
  intros Hname. induction n as [s|nm attrs children IH]
    using node_rect_children; [done|].
  rewrite decompose_tag.
  destruct (existsb (str_eqb nm) names) eqn:Enm; [done|].
  cbn [mbind list_bind]. rewrite app_nil_r, find_all_from_tag.
  destruct (str_eqb nm name) eqn:E.
  - apply str_eqb_eq in E as ->. congruence.
  - cbn [app]. by apply bind_bind_nil.
Qed.

(** Pruning what was pruned changes nothing. *)
Lemma decompose_idempotent (names : list pystr) (n : node) :
  decompose names n ≫= decompose names = decompose names n.
Proof.
  induction n as [s|nm attrs children IH] using node_rect_children; [done|].
  rewrite decompose_tag.
  destruct (existsb (str_eqb nm) names) eqn:Enm; [done|].
  cbn [mbind list_bind]. rewrite app_nil_r, decompose_tag, Enm.
  by rewrite bind_fixed_Forall.
Qed.

End TreeFacts.

Module TreeTheorems.
Import Py LLMHandler QuizSolver Spec StringFacts TreeFacts.

(** X16: After the scripts and styles are removed from a page, no [script] and
    no [style] element is left at any depth, and removing them again
    changes nothing. *)
Theorem decompose_all_removes_scripts (soup : list node) :
  find_all (lit "script") (decompose_all soup) = []
  ∧ find_all (lit "style") (decompose_all soup) = []
  ∧ decompose_all (decompose_all soup) = decompose_all soup.
Proof.
  unfold find_all, decompose_all. split_and!.
  - apply bind_bind_nil, Forall_forall. intros n _.
    by apply decompose_find_all_from.
  - apply bind_bind_nil, Forall_forall. intros n _.
    by apply decompose_find_all_from.
  - apply bind_fixed_Forall, Forall_forall. intros n _.
    apply decompose_idempotent.
Qed.

End TreeTheorems.

(** ** The pipeline and the URL parser *)

Module PipelineFacts.
Import Py LLMHandler QuizSolver Spec StringFacts.

Section WithWorld.
Context `{json_lib : JsonDecoder} `{unicode_lib : UnicodeData} `{interpreter : Interpreter}
        `{extractors : Extractors} `{decoders : Decoders} `{outside : Outside}.

(** The record of a question has no key [quiz_url]: the script of a plan
    is run without a URL being parsed. *)
Lemma _execute_python_solution_any_parser (url_lib1 url_lib2 : UrlParser)
    (code : pyval) (q : question_data) :
  _execute_python_solution (url_lib := url_lib1) code (as_context q)
  = _execute_python_solution (url_lib := url_lib2) code (as_context q).
Proof. reflexivity. Qed.

Lemma execute_solution_any_parser (url_lib1 url_lib2 : UrlParser)
    (solution : pyval) (q : question_data) :
  execute_solution (url_lib := url_lib1) solution (as_context q)
  = execute_solution (url_lib := url_lib2) solution (as_context q).
Proof.
  unfold execute_solution.
  destruct (get solution (lit "answer_type") _) as [answer_type|e];
    rewrite ?bind_Ok; [|done].
  destruct (get solution (lit "solution_code") _) as [solution_code|e];
    rewrite ?bind_Ok; [|done].
  destruct (any_in code_keywords solution_code) as [[|]|e];
    rewrite ?bind_Ok; [|done..].
  apply _execute_python_solution_any_parser.
Qed.

Lemma _solve_single_question_any_parser (url_lib1 url_lib2 : UrlParser)
    (n : nat) (email secret quiz_url : pystr) :
  _solve_single_question (url_lib := url_lib1) n email secret quiz_url
  = _solve_single_question (url_lib := url_lib2) n email secret quiz_url.
Proof.
  unfold _solve_single_question.
  destruct (fetch_quiz_page n quiz_url) as [page_content|e];
    rewrite ?bind_Ok; [|done].
  destruct (analyze_quiz n _ _ page_content quiz_url) as [solution|e];
    rewrite ?bind_Ok; [|done].
  rewrite (execute_solution_any_parser url_lib1 url_lib2).
  destruct (execute_solution solution _) as [answer|e];
    rewrite ?bind_Ok; [|done].
  unfold _submit_answer.
  by rewrite !ChainFacts.submit_target_constant.
Qed.

Lemma chain_loop_any_parser (url_lib1 url_lib2 : UrlParser)
    (settings : Settings) (fuel : nat) (email secret : pystr)
    (current_url : option pystr) (count : nat) (done_urls : list pystr)
    (lines : list log_line) :
  chain_loop (url_lib := url_lib1) settings fuel email secret current_url
    count done_urls lines
  = chain_loop (url_lib := url_lib2) settings fuel email secret current_url
      count done_urls lines.
Proof.
  revert current_url count done_urls lines.
  induction fuel as [|fuel IH]; intros current_url count done_urls lines;
    [done|].
  cbn [chain_loop]. destruct current_url as [[|c u]|]; [done| |done].
  destruct (_ >? _)%Z; [done|].
  rewrite (_solve_single_question_any_parser url_lib1 url_lib2).
  destruct (_solve_single_question _ _ _ _) as [result|e]; [|done].
  by rewrite !IH.
Qed.
End WithWorld.

End PipelineFacts.

Module PipelineTheorems.
Import Py LLMHandler QuizSolver Spec StringFacts PipelineFacts.

Section WithWorld.
Context `{json_lib : JsonDecoder} `{unicode_lib : UnicodeData} `{interpreter : Interpreter}
        `{extractors : Extractors} `{decoders : Decoders} `{outside : Outside}.

(** X17: The chain never parses a URL: the record of a question handed to
    [execute_solution] has no key [quiz_url], so the base URL computed for
    a script is always the default one, and the endpoint of a submission
    is fixed.  A question and a whole chain give the same result whatever
    [urlparse] would answer or raise. *)
Theorem chain_never_parses_urls (url_lib1 url_lib2 : UrlParser)
    (settings : Settings) (fuel n : nat)
    (email secret quiz_url : pystr) :
  _solve_single_question (url_lib := url_lib1) n email secret quiz_url
  = _solve_single_question (url_lib := url_lib2) n email secret quiz_url
  ∧ solve_quiz_chain (url_lib := url_lib1) settings fuel email secret quiz_url
    = solve_quiz_chain (url_lib := url_lib2) settings fuel email secret quiz_url.
Proof.
  split; [apply _solve_single_question_any_parser|].
  unfold solve_quiz_chain.
  by rewrite (chain_loop_any_parser url_lib1 url_lib2).
Qed.
End WithWorld.

End PipelineTheorems.

(** ** Integers printed and read back *)

Module NumeralFacts.
Import Py LLMHandler Spec SpecExecute SpecNumerals StringFacts PrefixFacts.

Lemma lit_String (c : ascii) (s : string) :
  lit (String c s) = N_of_ascii c :: lit s.
Proof. reflexivity. Qed.

Lemma digit_group_uint (d : Decimal.uint) :
  digit_group true (lit (NilEmpty.string_of_uint d)) = Some (uint_digits d).
Proof.
  induction d as [|d IH|d IH|d IH|d IH|d IH|d IH|d IH|d IH|d IH|d IH];
    [done|..];
    cbn [NilEmpty.string_of_uint]; rewrite lit_String; cbn; by rewrite IH.
Qed.

Lemma digit_group_uint_nonnil (d : Decimal.uint) :
  d ≠ Decimal.Nil →
  digit_group false (lit (NilEmpty.string_of_uint d)) = Some (uint_digits d).
Proof.
  pose proof digit_group_uint as Hd.
  destruct d as [|d|d|d|d|d|d|d|d|d|d]; [done|..]; intros _;
    cbn [NilEmpty.string_of_uint]; rewrite lit_String; cbn; by rewrite Hd.
Qed.

Lemma length_uint_digits (d : Decimal.uint) :
  length (uint_digits d) = length (lit (NilEmpty.string_of_uint d)).
Proof.
  induction d as [|d IH|d IH|d IH|d IH|d IH|d IH|d IH|d IH|d IH|d IH];
    [done|..];
    cbn [NilEmpty.string_of_uint uint_digits]; rewrite lit_String; cbn [length];
    by rewrite IH.
Qed.

Lemma split_sign_uint (d : Decimal.uint) :
  d ≠ Decimal.Nil →
  split_sign (lit (NilEmpty.string_of_uint d))
  = (false, lit (NilEmpty.string_of_uint d)).
Proof. destruct d; [done|..]; by intros _. Qed.

Lemma numeral_chars_uint (d : Decimal.uint) :
  forallb numeral_char (lit (NilEmpty.string_of_uint d)) = true.
Proof.
  induction d as [|d IH|d IH|d IH|d IH|d IH|d IH|d IH|d IH|d IH|d IH];
    [done|..];
    cbn [NilEmpty.string_of_uint]; rewrite lit_String; cbn; by rewrite IH.
Qed.

Lemma fold_digits_acc (d : Decimal.uint) (acc : positive) :
  fold_left (λ a x, a * 10 + x)%Z (uint_digits d) (Z.pos acc)
  = Z.pos (Pos.of_uint_acc d acc).
Proof.
  revert acc.
  induction d as [|d IH|d IH|d IH|d IH|d IH|d IH|d IH|d IH|d IH|d IH];
    intros acc; [done|..]; cbn [uint_digits fold_left Pos.of_uint_acc];
    rewrite <- IH; f_equal; lia.
Qed.

Lemma digits_value_uint (d : Decimal.uint) :
  digits_value (uint_digits d) = Z.of_N (Pos.of_uint d).
Proof.
  unfold digits_value.
  induction d as [|d IH|d IH|d IH|d IH|d IH|d IH|d IH|d IH|d IH|d IH];
    [done|exact IH|..]; cbn [uint_digits fold_left Pos.of_uint];
    apply (fold_digits_acc d).
Qed.

(** The text of an integer: digits, after a minus sign when it is
    negative. *)
Lemma str_of_Z_pos (p : positive) :
  str_of_Z (Z.pos p) = lit (NilEmpty.string_of_uint (Pos.to_uint p)).
Proof.
  unfold str_of_Z. cbn [Z.to_int NilZero.string_of_int].
  unfold NilZero.string_of_uint.
  pose proof (DecimalPos.Unsigned.to_uint_nonnil p) as Hn.
  by destruct (Pos.to_uint p).
Qed.

Lemma str_of_Z_neg (p : positive) :
  str_of_Z (Z.neg p) = 45%N :: lit (NilEmpty.string_of_uint (Pos.to_uint p)).
Proof.
  unfold str_of_Z. cbn [Z.to_int NilZero.string_of_int].
  rewrite lit_String. unfold NilZero.string_of_uint.
  pose proof (DecimalPos.Unsigned.to_uint_nonnil p) as Hn.
  by destruct (Pos.to_uint p).
Qed.

Lemma numeral_chars_str_of_Z (z : Z) :
  forallb numeral_char (str_of_Z z) = true.
Proof.
  destruct z as [|p|p]; [done|..].
  - rewrite str_of_Z_pos. apply numeral_chars_uint.
  - rewrite str_of_Z_neg. cbn [forallb]. by rewrite numeral_chars_uint.
Qed.

(** A text without a character to strip at its ends is left as it is. *)
Lemma strip_by_fixed (f : N → bool) (s : pystr) :
  forallb (λ c, negb (f c)) s = true → strip_by f s = s.
Proof.
  intros Hs. rewrite forallb_forall in Hs.
  unfold strip_by. rewrite (lstrip_by_fixed f s).
  - apply rstrip_by_fixed. intros t c ->. apply negb_true_iff, Hs.
    apply in_or_app. right. by left.
  - intros c t ->. apply negb_true_iff, Hs. by left.
Qed.

Lemma strip_fixed (s : pystr) :
  forallb (λ c, negb (isspace c)) s = true → strip s = s.
Proof. apply strip_by_fixed. Qed.

Lemma forallb_impl {A : Type} (f g : A → bool) (l : list A) :
  (∀ x, f x = true → g x = true) → forallb f l = true → forallb g l = true.
Proof.
  intros Hfg. rewrite !forallb_forall. intros Hf x Hx. by apply Hfg, Hf.
Qed.

Lemma numeral_char_cases (c : N) :
  numeral_char c = true →
  isspace c = false ∧ c ≠ 44%N ∧ c ≠ 46%N ∧ c ≠ 61%N
  ∧ c ≠ 105%N ∧ c ≠ 100%N ∧ c ≠ 102%N ∧ c ≠ 119%N.
Proof.
  unfold numeral_char, isspace. intros H.
  repeat match goal with
         | H : (_ || _) = true |- _ => apply orb_true_iff in H as [H|H]
         | H : (_ && _) = true |- _ => apply andb_true_iff in H as [? ?]
         | H : (_ <=? _)%N = true |- _ => apply N.leb_le in H
         | H : (_ =? _)%N = true |- _ => apply N.eqb_eq in H
         end.
  - split_and!; try lia.
    repeat match goal with
           | |- context [(?a <=? ?b)%N] => destruct (N.leb_spec a b); try lia
           | |- context [(?a =? ?b)%N] => destruct (N.eqb_spec a b); try lia
           end; done.
  - subst c. by split_and!.
Qed.

(** A text that does not hold the first character of a pattern does not
    hold the pattern. *)
Lemma contains_absent (k : N) (p s : pystr) :
  k ∉ s → contains (k :: p) s = false.
Proof.
  induction s as [|c s IH]; [done|].
  intros [Hc Hs]%not_elem_of_cons. cbn [contains startswith].
  rewrite IH by done. destruct (N.eqb_spec k c); [done|]. done.
Qed.

Lemma replace_from_absent (k : N) (p new s : pystr) :
  k ∉ s → replace_from (k :: p) new 0 s = s.
Proof.
  induction s as [|c s IH]; [done|].
  intros [Hc Hs]%not_elem_of_cons. cbn [replace_from startswith].
  destruct (N.eqb_spec k c); [done|]. cbn. by rewrite IH.
Qed.

Lemma numeral_absent (s : pystr) (k : N) :
  forallb numeral_char s = true → numeral_char k = false → k ∉ s.
Proof.
  rewrite forallb_forall. intros Hs Hk Hin.
  apply list_elem_of_In, Hs in Hin. congruence.
Qed.

Lemma numeral_not_space (s : pystr) :
  forallb numeral_char s = true →
  forallb (λ c, negb (isspace c)) s = true
  ∧ forallb (λ c, negb (number_space c)) s = true.
Proof.
  intros Hs. split; (eapply forallb_impl; [|exact Hs]); intros c Hc;
    apply negb_true_iff; apply numeral_char_cases in Hc as (Hsp & _);
    [done|]. unfold number_space. by rewrite Hsp.
Qed.

Lemma decimal_digits_pos (p : positive) :
  decimal_digits (Z.pos p) = length (uint_digits (Pos.to_uint p))
  ∧ decimal_digits (Z.neg p) = length (uint_digits (Pos.to_uint p)).
Proof.
  unfold decimal_digits.
  change (Z.abs (Z.pos p)) with (Z.pos p).
  change (Z.abs (Z.neg p)) with (Z.pos p).
  by rewrite str_of_Z_pos, length_uint_digits.
Qed.

(** [int] reads the text of an integer back when it has no more digits
    than the limit allows, and raises otherwise. *)
Lemma py_int_str_of_Z (z : Z) :
  py_int (str_of_Z z)
  = if (int_max_str_digits <? Z.of_nat (decimal_digits z))%Z then None
    else Some z.
Proof.
  unfold py_int. rewrite strip_by_fixed
    by apply numeral_not_space, numeral_chars_str_of_Z.
  destruct z as [|p|p]; [by vm_compute|..].
  - rewrite (proj1 (decimal_digits_pos p)), str_of_Z_pos.
    rewrite split_sign_uint by apply DecimalPos.Unsigned.to_uint_nonnil.
    rewrite digit_group_uint_nonnil
      by apply DecimalPos.Unsigned.to_uint_nonnil.
    cbn [mbind option_bind]. destruct (_ <? _)%Z; [done|].
    by rewrite digits_value_uint, DecimalPos.Unsigned.of_to.
  - rewrite (proj2 (decimal_digits_pos p)), str_of_Z_neg. cbn [split_sign].
    rewrite digit_group_uint_nonnil
      by apply DecimalPos.Unsigned.to_uint_nonnil.
    cbn [mbind option_bind]. destruct (_ <? _)%Z; [done|].
    by rewrite digits_value_uint, DecimalPos.Unsigned.of_to.
Qed.

End NumeralFacts.

Module NumeralTheorems.
Import Py LLMHandler Spec SpecExecute SpecNumerals StringFacts PrefixFacts
  NumeralFacts.

Section WithOracles.
Context `{json_lib : JsonDecoder} `{url_lib : UrlParser} `{interpreter : Interpreter}.

(** X18: A plan of type [number] whose [solution_code] is the decimal
    numeral of an integer gives that integer back when the numeral has at
    most 4300 digits, the limit of [int]: the text is not taken for code,
    and [int] reads it as the number it was printed from.  For a longer
    numeral [int] raises and the answer is the text itself. *)
Theorem integer_answer_round_trip (plan : list (pystr * pyval)) (z : Z)
    (context : pyval) :
  assoc (lit "answer_type") plan = Some (VStr (lit "number")) →
  assoc (lit "solution_code") plan = Some (VStr (str_of_Z z)) →
  ((Z.of_nat (decimal_digits z) ≤ int_max_str_digits)%Z →
     execute_solution (VDict plan) context = Ok (VInt z))
  ∧ ((int_max_str_digits < Z.of_nat (decimal_digits z))%Z →
       execute_solution (VDict plan) context = Ok (VStr (str_of_Z z))).
Proof.
  intros Htype Hcode.
  assert (execute_solution (VDict plan) context
          = match py_int (str_of_Z z) with
            | Some n => Ok (VInt n)
            | None => Ok (VStr (str_of_Z z))
            end) as ->.
  { unfold execute_solution. cbn [get].
    rewrite Htype, Hcode. cbn [default from_option id]. rewrite !bind_Ok.
    pose proof (numeral_chars_str_of_Z z) as Hchars.
    assert (∀ k, numeral_char k = false → k ∉ str_of_Z z) as Habsent.
    { intros k Hk. by apply numeral_absent. }
    rewrite ExecuteMoreFacts.any_in_str.
    assert (existsb (λ kw, contains kw (str_of_Z z)) code_keywords = false)
      as ->.
    { unfold code_keywords. cbn [existsb].
      change (lit "import") with (105%N :: lit "mport").
      change (lit "def ") with (100%N :: lit "ef ").
      change (lit "for ") with (102%N :: lit "or ").
      change (lit "while ") with (119%N :: lit "hile ").
      change (lit "=") with (61%N :: []).
      by rewrite !contains_absent by (by apply Habsent). }
    rewrite bind_Ok. unfold val_is at 1. rewrite str_eqb_refl.
    change (lit ",") with [44%N]. unfold replace.
    rewrite replace_from_absent by (by apply Habsent).
    rewrite strip_fixed by (by apply numeral_not_space).
    change (lit ".") with [46%N].
    by rewrite contains_absent by (by apply Habsent). }
  rewrite py_int_str_of_Z. split; intros Hdigits.
  - by destruct (Z.ltb_spec int_max_str_digits (Z.of_nat (decimal_digits z)));
      [lia|].
  - by destruct (Z.ltb_spec int_max_str_digits (Z.of_nat (decimal_digits z)));
      [|lia].
Qed.
End WithOracles.

Lemma integer_answer_round_trip_witness :
  execute_solution (json_lib := Scenario.rejecting_decoder)
    (url_lib := Scenario.no_urlparse)
    (interpreter := Scenario.failing_interpreter)
    (VDict [(lit "answer_type", VStr (lit "number"));
            (lit "solution_code", VStr (str_of_Z (-1234)))])
    VNone
  = Ok (VInt (-1234)).
Proof.
  apply integer_answer_round_trip; [reflexivity..|]. by vm_compute.
Defined.

End NumeralTheorems.
